(** * ultrafast.js: the result cache and the search coordinator

    A shallow embedding of the cache ([searchCache], [getCachedResults],
    [setCachedResults]) and of the request layer ([optimizedFetch],
    [executeParallelSearches]) of [src/ultrafast.js], with the two callers
    that write the cache ([performSearchFast], [preloadSearchData]), and of
    the parts of the page around them that compute: the paging and the
    pagination of [renderResultsFast], [getResponsiveGridColumns], the
    title, link and image of an item ([getPrimaryImage]),
    [extractContentSnippet], the debouncing of the preload
    ([optimizedDebouncedSearch]) and [getOrCreateVisitorId].

    Conventions.
    - JS strings are modelled by [string]; [toLowerCase] lower-cases the
      ASCII letters and leaves every other code unit alone.
    - The search is given twice: on a text and a [Network] of replies, and
      as the browser runs it, on the UTF-16 code units of the query
      ([JsString], on which [encodeURIComponent] can throw) and a [Wire],
      a network on which the body of a response may never arrive.  The
      second is the first for a well-formed query and bodies that arrive
      ([executeParallelSearches_raw_sound]).
    - [Date.now()] is an integer number of milliseconds, a [Z].
    - The JS [Map] is an association list in insertion order.
    - Asynchronous code is written in a state monad over a [World]; a
      function that awaits the network is split at the await into a part
      that issues the requests and a part that runs when they settle, so
      that another call can be placed in between.
    - What is drawn on the page is an event of the world's log; drawing
      is taken not to throw. *)

From Stdlib Require Import List String Ascii ZArith NArith Bool Lia
  DecimalString.
Import ListNotations.
Open Scope string_scope.
Open Scope list_scope.
Set Warnings "-register-all".

(** ** JS values that cross the JSON boundary *)

Inductive Json : Type :=
| JNull
| JBool (b : bool)
| JNum (n : Z)
| JStr (s : string)
| JArr (items : list Json)
| JObj (props : list (string * Json)).

(** A plain JS object: its own enumerable properties, in insertion order. *)
Definition JsObject : Type := list (string * Json).

(** ** The JS [Map]: keyed by strings, iterated in insertion order *)

Module JsMap.
Section WithValues.
Context {V : Type}.

Definition Map : Type := list (string * V).

Definition empty : Map := [].

(** [m.get(k)]; [None] is [undefined]. *)
Fixpoint get (m : Map) (k : string) : option V :=
  match m with
  | [] => None
  | (k', v) :: m' => if String.eqb k' k then Some v else get m' k
  end.

Definition has (m : Map) (k : string) : bool :=
  match get m k with Some _ => true | None => false end.

(** [m.set(k, v)]: an existing key keeps its place in the iteration order
    and takes the new value; a new key goes last. *)
Fixpoint set (m : Map) (k : string) (v : V) : Map :=
  match m with
  | [] => [(k, v)]
  | (k', v') :: m' =>
      if String.eqb k' k then (k, v) :: m' else (k', v') :: set m' k v
  end.

(** [m.delete(k)]. *)
Definition delete (m : Map) (k : string) : Map :=
  filter (fun kv => negb (String.eqb (fst kv) k)) m.

(** [m.size]. *)
Definition size (m : Map) : nat := List.length m.

(** [m.keys().next().value]; [None] is the [undefined] of an exhausted
    iterator. *)
Definition first_key (m : Map) : option string :=
  match m with
  | [] => None
  | (k, _) :: _ => Some k
  end.

Definition keys (m : Map) : list string := map fst m.

(** What every [Map] satisfies: no key twice. *)
Definition wf (m : Map) : Prop := NoDup (keys m).
End WithValues.
Arguments Map : clear implicits.
End JsMap.

(** ** Object literals with spread *)

(** Decimal spelling of an array index, the property key of an element. *)
Definition index_key (i : nat) : string :=
  NilZero.string_of_uint (Nat.to_uint i).

Fixpoint indexed {A : Type} (f : A -> Json) (i : nat) (l : list A)
  : JsObject :=
  match l with
  | [] => []
  | x :: l' => (index_key i, f x) :: indexed f (S i) l'
  end.

Definition char_value (c : ascii) : Json := JStr (String c EmptyString).

(** [{...v}]: the own enumerable properties of [v].  Objects give their
    properties, arrays and strings their indexed elements, the other
    primitives and [null] nothing. *)
Definition spread (v : Json) : JsObject :=
  match v with
  | JObj props => props
  | JArr items => indexed (fun x => x) 0 items
  | JStr s => indexed char_value 0 (list_ascii_of_string s)
  | JNull | JBool _ | JNum _ => []
  end.

(** The truthiness that [||] tests. *)
Definition truthy (v : Json) : bool :=
  match v with
  | JNull => false
  | JBool b => b
  | JNum n => negb (Z.eqb n 0)
  | JStr s => negb (String.eqb s "")
  | JArr _ | JObj _ => true
  end.

(** ** The cache (ultrafast.js, lines 1-31) *)

Record CacheEntry : Type := mkEntry {
  results : list JsObject;
  timestamp : Z
}.

Definition Cache : Type := JsMap.Map CacheEntry.

Definition CACHE_DURATION : Z := 15 * 60 * 1000.
Definition MAX_CACHE_SIZE : nat := 200.

Definition lower_ascii (c : ascii) : ascii :=
  let n := nat_of_ascii c in
  if Nat.leb 65 n && Nat.leb n 90 then ascii_of_nat (n + 32) else c.

(** [s.toLowerCase()] on a text of ASCII characters, one [ascii] for each:
    the letters A-Z become a-z and every other character stays.  Letters
    outside ASCII, whose lower case can have another length, are not
    covered; [extractContentSnippet] takes the operation as a parameter
    for that reason. *)
Fixpoint toLowerCase (s : string) : string :=
  match s with
  | EmptyString => EmptyString
  | String c s' => String (lower_ascii c) (toLowerCase s')
  end.

(** [`${query.toLowerCase()}_${selectedOption}`] *)
Definition cacheKey (query selectedOption : string) : string :=
  (toLowerCase query ++ "_" ++ selectedOption)%string.

(** [getCachedResults(query, selectedOption)] at time [now], in
    state-passing style: the value returned ([None] is [null]) and the cache
    after the call. *)
Definition getCachedResults (query selectedOption : string) (now : Z)
    (searchCache : Cache) : option (list JsObject) * Cache :=
  let cacheKey := cacheKey query selectedOption in
  let cached := JsMap.get searchCache cacheKey in
  match cached with
  | Some cached =>
      if Z.ltb (now - timestamp cached) CACHE_DURATION
      then (Some (results cached), searchCache)
      else (None, searchCache)
  | None => (None, searchCache)
  end.

(** [setCachedResults(query, selectedOption, results)] at time [now]. *)
Definition setCachedResults (query selectedOption : string)
    (results : list JsObject) (now : Z) (searchCache : Cache) : Cache :=
  let cacheKey := cacheKey query selectedOption in
  let searchCache :=
    if Nat.leb MAX_CACHE_SIZE (JsMap.size searchCache) then
      match JsMap.first_key searchCache with
      | Some firstKey => JsMap.delete searchCache firstKey
      | None => searchCache
      end
    else searchCache in
  JsMap.set searchCache cacheKey (mkEntry results now).

(** A recorded call of [setCachedResults], and a run of such calls. *)
Record StoreCall : Type := mkStore {
  sc_query : string;
  sc_option : string;
  sc_results : list JsObject;
  sc_now : Z
}.

Definition store_key (s : StoreCall) : string :=
  cacheKey (sc_query s) (sc_option s).

Definition store (c : Cache) (s : StoreCall) : Cache :=
  setCachedResults (sc_query s) (sc_option s) (sc_results s) (sc_now s) c.

Definition store_all (calls : list StoreCall) (c : Cache) : Cache :=
  fold_left store calls c.

(** The filter modes of the widget. *)
Definition filterOptions : list string := ["Pages"; "Collection"; "Both"].

(** ** The world the asynchronous code runs in *)

Record JsError : Type := mkError {
  err_name : string;
  err_message : string
}.

(** How an awaited computation ends: with a value, with an exception (a
    rejected promise), or never. *)
Inductive Outcome (A : Type) : Type :=
| Returns (a : A)
| Throws (e : JsError)
| Hangs.
Arguments Returns {A} a.
Arguments Throws {A} e.
Arguments Hangs {A}.

(** The two endpoints, by the parameters the template literals splice in
    (the query goes through [encodeURIComponent]; the limit is 50). *)
Inductive Url : Type :=
| SearchIndex (query siteName : string)
| SearchCms (query siteName collections searchFields displayFields : string).

Record Response : Type := mkResponse {
  status : Z;
  statusText : string;
  (** what [response.json()] resolves to; [None]: it rejects *)
  resp_json : option Json
}.

(** [response.ok]: the status is in the range 200-299. *)
Definition ok (r : Response) : bool :=
  Z.leb 200 (status r) && Z.leb (status r) 299.

(** What the network does with one attempt, unless the attempt is aborted
    first: it answers, it fails, or it stays silent for longer than the
    timer of the attempt. *)
Inductive NetReply : Type :=
| Replies (r : Response)
| NetFails (e : JsError)
| NoReply.

(** The network seen by one search: the reply to the [n]-th attempt at a
    URL, and the time that passes until the sub-requests have settled. *)
Record Network : Type := mkNetwork {
  reply : Url -> nat -> NetReply;
  elapsed : Z
}.

(** The second argument of [fetch]: an object with a signal, headers and
    flags.  A signal is named by the controller it belongs to. *)
Inductive InitValue : Type :=
| ISignal (controller : nat)
| IHeaders (h : JsMap.Map string)
| IFlag (b : bool).

Definition FetchInit : Type := JsMap.Map InitValue.

Inductive Event : Type :=
| EvFetch (url : Url) (init : FetchInit)
| EvSetTimeout (ms : Z)
| EvClearTimeout
| EvWait (ms : Z)
| EvIndicator (shown : bool)
| EvSpinner (shown : bool)
| EvClearResults
| EvRenderNoResults
| EvRenderResults (rs : list JsObject)
| EvRenderError.

Record World : Type := mkWorld {
  (** the [AbortController]s created so far: has [abort()] been called? *)
  controllers : list bool;
  currentSearchController : option nat;
  searchCache : Cache;
  (** [Date.now()] *)
  clock : Z;
  (** what was done to the outside, oldest first *)
  log : list Event
}.

Definition initial_world : World := mkWorld [] None JsMap.empty 0 [].

Definition M (A : Type) : Type := World -> Outcome A * World.

Definition ret {A : Type} (a : A) : M A := fun w => (Returns a, w).

Definition throw {A : Type} (e : JsError) : M A := fun w => (Throws e, w).

Definition bind {A B : Type} (m : M A) (k : A -> M B) : M B :=
  fun w =>
    match m w with
    | (Returns a, w') => k a w'
    | (Throws e, w') => (Throws e, w')
    | (Hangs, w') => (Hangs, w')
    end.

(** [try { body } catch (error) { handler }] *)
Definition try_catch {A : Type} (body : M A) (handler : JsError -> M A)
  : M A :=
  fun w =>
    match body w with
    | (Throws e, w') => handler e w'
    | r => r
    end.

Declare Scope js_scope.
Delimit Scope js_scope with js.
Notation "x <- m ;; k" := (bind m (fun x => k))
  (at level 61, m at next level, right associativity) : js_scope.
Notation "m ;; k" := (bind m (fun _ => k))
  (at level 61, right associativity) : js_scope.
Open Scope js_scope.

Definition emit (e : Event) : M unit :=
  fun w => (Returns tt,
            mkWorld (controllers w) (currentSearchController w)
                    (searchCache w) (clock w) (log w ++ [e])).

Definition Date_now : M Z := fun w => (Returns (clock w), w).

(** Time passing while the caller is suspended. *)
Definition advance (dt : Z) : M unit :=
  fun w => (Returns tt,
            mkWorld (controllers w) (currentSearchController w)
                    (searchCache w) (clock w + dt) (log w)).

(** [new AbortController()] *)
Definition new_AbortController : M nat :=
  fun w => (Returns (List.length (controllers w)),
            mkWorld (controllers w ++ [false]) (currentSearchController w)
                    (searchCache w) (clock w) (log w)).

Fixpoint raise_flag (flags : list bool) (i : nat) : list bool :=
  match flags, i with
  | [], _ => []
  | _ :: flags', O => true :: flags'
  | b :: flags', S i' => b :: raise_flag flags' i'
  end.

(** [controller.abort()] *)
Definition abort (controller : nat) : M unit :=
  fun w => (Returns tt,
            mkWorld (raise_flag (controllers w) controller)
                    (currentSearchController w) (searchCache w) (clock w)
                    (log w)).

(** [signal.aborted] *)
Definition aborted (w : World) (controller : nat) : bool :=
  nth controller (controllers w) false.

Definition get_currentSearchController : M (option nat) :=
  fun w => (Returns (currentSearchController w), w).

Definition set_currentSearchController (c : option nat) : M unit :=
  fun w => (Returns tt,
            mkWorld (controllers w) c (searchCache w) (clock w) (log w)).

(** The cache functions, run on the world's cache and clock. *)
Definition lookup_cache (query selectedOption : string)
  : M (option (list JsObject)) :=
  fun w =>
    let '(r, c) :=
      getCachedResults query selectedOption (clock w) (searchCache w) in
    (Returns r,
     mkWorld (controllers w) (currentSearchController w) c (clock w) (log w)).

Definition store_cache (query selectedOption : string)
    (results : list JsObject) : M unit :=
  fun w =>
    (Returns tt,
     mkWorld (controllers w) (currentSearchController w)
             (setCachedResults query selectedOption results (clock w)
                               (searchCache w))
             (clock w) (log w)).

(** ** The request layer (ultrafast.js, lines 42-126) *)

(** A [fetch] that has been issued and not yet awaited to its end. *)
Record Pending : Type := mkPending {
  p_url : Url;
  p_options : FetchInit;
  (** the controller [optimizedFetch] created for this attempt *)
  p_controller : nat;
  (** the object handed to [fetch] *)
  p_init : FetchInit
}.

(** [options.headers], spread into an object literal. *)
Definition headers_of (options : FetchInit) : JsMap.Map string :=
  match JsMap.get options "headers" with
  | Some (IHeaders h) => h
  | _ => []
  end.

(** The signal [fetch] listens to: the [signal] property of its argument. *)
Definition signal_of (init : FetchInit) : option nat :=
  match JsMap.get init "signal" with
  | Some (ISignal c) => Some c
  | _ => None
  end.

Definition signal_aborted (w : World) (init : FetchInit) : bool :=
  match signal_of init with
  | Some c => aborted w c
  | None => false
  end.

Definition AbortError : JsError :=
  mkError "AbortError" "signal is aborted without reason".

(** The object literal handed to [fetch]:
    [{...options, signal: controller.signal, keepalive: true,
      headers: {...options.headers, 'Connection': 'keep-alive'}}].
    The properties of [options] come first; each later property of the
    same name replaces the value copied from [options]. *)
Definition fetch_init (options : FetchInit) (controller : nat) : FetchInit :=
  JsMap.set
    (JsMap.set
       (JsMap.set options "signal" (ISignal controller))
       "keepalive" (IFlag true))
    "headers"
    (IHeaders (JsMap.set (headers_of options) "Connection" "keep-alive")).

(** [optimizedFetch], up to its [await fetch(...)]: the controller, the
    timer, and the call of [fetch]. *)
Definition optimizedFetch_issue (url : Url) (options : FetchInit)
  : M Pending :=
  controller <- new_AbortController ;;
  emit (EvSetTimeout 10000) ;;
  let init := fetch_init options controller in
  emit (EvFetch url init) ;;
  ret (mkPending url options controller init).

(** The end of one [await fetch(...)]: a fetch whose signal is aborted
    rejects with an [AbortError]; otherwise the network decides.  When the
    network stays silent the timer runs [controller.abort()], and the fetch
    rejects if that is the signal it listens to. *)
Definition await_fetch (net : Network) (attempt : nat) (p : Pending)
  : M Response :=
  fun w =>
    if signal_aborted w (p_init p) then (Throws AbortError, w)
    else
      match reply net (p_url p) attempt with
      | Replies r => (Returns r, w)
      | NetFails e => (Throws e, w)
      | NoReply =>
          let w' := snd (abort (p_controller p) w) in
          if signal_aborted w' (p_init p) then (Throws AbortError, w')
          else (Hangs, w')
      end.

(** [optimizedFetch] from its [await] on, with [retries] retries left;
    [attempt] counts the attempts made at this URL before this one. *)
Fixpoint optimizedFetch_settle (net : Network) (retries attempt : nat)
    (p : Pending) : M Response :=
  try_catch
    (response <- await_fetch net attempt p ;;
     emit EvClearTimeout ;;
     ret response)
    (fun error =>
       emit EvClearTimeout ;;
       match retries with
       | S retries' =>
           if negb (String.eqb (err_name error) "AbortError") then
             emit (EvWait 300) ;;
             p' <- optimizedFetch_issue (p_url p) (p_options p) ;;
             optimizedFetch_settle net retries' (S attempt) p'
           else throw error
       | O => throw error
       end).

(** [optimizedFetch(url, options, retries)], run without interruption. *)
Definition optimizedFetch (net : Network) (url : Url) (options : FetchInit)
    (retries : nat) : M Response :=
  p <- optimizedFetch_issue url options ;;
  optimizedFetch_settle net retries 0 p.

Record SearchConfig : Type := mkConfig {
  selectedOption : string;
  siteName : string;
  token : string;
  collectionsParam : string;
  fieldsSearchParam : string;
  fieldsDisplayParam : string
}.

(** An element of [searchPromises]. *)
Record SearchPromise : Type := mkPromise {
  sp_type : string;
  sp_promise : Pending
}.

Definition wants_pages (selectedOption : string) : bool :=
  String.eqb selectedOption "Pages" || String.eqb selectedOption "Both".

Definition wants_collection (selectedOption : string) : bool :=
  String.eqb selectedOption "Collection" || String.eqb selectedOption "Both".

(** The two URLs, for the text that [encodeURIComponent(query)] gave;
    the case that it throws is in [executeParallelSearches_start_raw]. *)
Definition pageUrl (query : string) (cfg : SearchConfig) : Url :=
  SearchIndex query (siteName cfg).

Definition cmsUrl (query : string) (cfg : SearchConfig) : Url :=
  SearchCms query (siteName cfg) (collectionsParam cfg)
            (fieldsSearchParam cfg) (fieldsDisplayParam cfg).

(** [executeParallelSearches], lines 76-99: everything that runs before the
    function first suspends. *)
Definition executeParallelSearches_start (query : string)
    (cfg : SearchConfig) : M (list SearchPromise) :=
  let headers := [("Authorization", ("Bearer " ++ token cfg)%string)] in
  current <- get_currentSearchController ;;
  match current with
  | Some c => abort c
  | None => ret tt
  end ;;
  c <- new_AbortController ;;
  set_currentSearchController (Some c) ;;
  let options := [("headers", IHeaders headers); ("signal", ISignal c)] in
  pages <-
    (if wants_pages (selectedOption cfg) then
       pagePromise <- optimizedFetch_issue (pageUrl query cfg) options ;;
       ret [mkPromise "page" pagePromise]
     else ret []) ;;
  cms <-
    (if wants_collection (selectedOption cfg) then
       cmsPromise <- optimizedFetch_issue (cmsUrl query cfg) options ;;
       ret [mkPromise "cms" cmsPromise]
     else ret []) ;;
  ret (pages ++ cms).

(** What the callback of [searchPromises.map] returns. *)
Record SubResult : Type := mkSub {
  sr_type : string;
  sr_data : Json;
  sr_success : bool;
  sr_error : option string
}.

(** [response.json()], once the body has arrived; a body that never
    arrives is in [json_raw]. *)
Definition json (response : Response) : M Json :=
  match resp_json response with
  | Some data => ret data
  | None => throw (mkError "SyntaxError" "Unexpected end of JSON input")
  end.

(** [data.results]: reading a property of [null] throws; a value that is
    not an object has no such property. *)
Definition get_results (data : Json) : M (option Json) :=
  match data with
  | JNull =>
      throw (mkError "TypeError" "Cannot read properties of null")
  | JObj props => ret (JsMap.get props "results")
  | _ => ret None
  end.

(** [v || []] *)
Definition or_empty_array (v : option Json) : Json :=
  match v with
  | Some x => if truthy x then x else JArr []
  | None => JArr []
  end.

(** The callback of [searchPromises.map], lines 102-114. *)
Definition settle_search (net : Network) (sp : SearchPromise)
  : M SubResult :=
  let type := sp_type sp in
  try_catch
    (response <- optimizedFetch_settle net 1 0 (sp_promise sp) ;;
     if ok response then
       data <- json response ;;
       r <- get_results data ;;
       ret (mkSub type (or_empty_array r) true None)
     else
       ret (mkSub type (JArr []) false (Some (statusText response))))
    (fun error =>
       ret (mkSub type (JArr []) false (Some (err_message error)))).

Inductive Settled (A : Type) : Type :=
| fulfilled (value : A)
| rejected (reason : JsError).
Arguments fulfilled {A} value.
Arguments rejected {A} reason.

(** [await Promise.allSettled(promises)]: every promise is run to its end,
    in the order of the array. *)
Fixpoint allSettled {A : Type} (promises : list (M A))
  : M (list (Settled A)) :=
  match promises with
  | [] => ret []
  | p :: promises' =>
      fun w =>
        match p w with
        | (Returns a, w') =>
            (rest <- allSettled promises' ;; ret (fulfilled a :: rest)) w'
        | (Throws e, w') =>
            (rest <- allSettled promises' ;; ret (rejected e :: rest)) w'
        | (Hangs, w') => (Hangs, w')
        end
  end.

(** [{ ...item, _type: type }] *)
Definition tag (type : string) (item : Json) : JsObject :=
  JsMap.set (spread item) "_type" (JStr type).

(** [data.map(f)]: only an array has the method. *)
Definition array_map (f : Json -> JsObject) (data : Json)
  : M (list JsObject) :=
  match data with
  | JArr items => ret (map f items)
  | _ =>
      throw (mkError "TypeError" "result.value.data.map is not a function")
  end.

(** The [results.forEach] of lines 117-123, with [allResults] threaded. *)
Fixpoint merge_results (results : list (Settled SubResult))
    (allResults : list JsObject) : M (list JsObject) :=
  match results with
  | [] => ret allResults
  | fulfilled value :: results' =>
      if sr_success value then
        typeData <- array_map (tag (sr_type value)) (sr_data value) ;;
        merge_results results' (allResults ++ typeData)
      else merge_results results' allResults
  | rejected _ :: results' => merge_results results' allResults
  end.

(** [executeParallelSearches], lines 101-125: from the [await] on. *)
Definition executeParallelSearches_finish (net : Network)
    (searchPromises : list SearchPromise) : M (list JsObject) :=
  advance (elapsed net) ;;
  results <- allSettled (map (settle_search net) searchPromises) ;;
  merge_results results [].

Definition executeParallelSearches (net : Network) (query : string)
    (cfg : SearchConfig) : M (list JsObject) :=
  searchPromises <- executeParallelSearches_start query cfg ;;
  executeParallelSearches_finish net searchPromises.

(** ** The search as the browser runs it (lines 75-126)

    Two things that the definitions above take for granted are spelled
    out here.  The query comes from the page as a string of UTF-16 code
    units, and [encodeURIComponent(query)], at lines 87 and 95, throws a
    [URIError] when a surrogate stands alone in it; this happens outside
    any [try].  And [response.json()], at line 106, is awaited after the
    timer of the attempt was cleared at line 60, so it waits for ever when
    the body of a response never arrives.  [executeParallelSearches] above
    is this search for a well-formed query and bodies that arrive. *)

(** A JS string: its UTF-16 code units. *)
Definition JsString : Type := list N.

Definition is_high_surrogate (c : N) : bool :=
  (0xD800 <=? c)%N && (c <=? 0xDBFF)%N.

Definition is_low_surrogate (c : N) : bool :=
  (0xDC00 <=? c)%N && (c <=? 0xDFFF)%N.

(** [s.isWellFormed()]: no surrogate stands alone. *)
Fixpoint isWellFormed (s : JsString) : bool :=
  match s with
  | [] => true
  | c :: s' =>
      if is_high_surrogate c then
        match s' with
        | d :: s'' => is_low_surrogate d && isWellFormed s''
        | [] => false
        end
      else negb (is_low_surrogate c) && isWellFormed s'
  end.

(** The code points of a string: a high surrogate and the low one after
    it make one code point; a surrogate that stands alone is kept. *)
Fixpoint code_points (s : JsString) : list N :=
  match s with
  | [] => []
  | c :: s' =>
      match s' with
      | d :: s'' =>
          if is_high_surrogate c && is_low_surrogate d
          then (0x10000 + (c - 0xD800) * 0x400 + (d - 0xDC00))%N
               :: code_points s''
          else c :: code_points s'
      | [] => [c]
      end
  end.

(** The UTF-8 bytes of a code point. *)
Definition utf8_bytes (cp : N) : list N :=
  if (cp <? 0x80)%N then [cp]
  else if (cp <? 0x800)%N then
    [(0xC0 + cp / 0x40)%N; (0x80 + cp mod 0x40)%N]
  else if (cp <? 0x10000)%N then
    [(0xE0 + cp / 0x1000)%N; (0x80 + (cp / 0x40) mod 0x40)%N;
     (0x80 + cp mod 0x40)%N]
  else
    [(0xF0 + cp / 0x40000)%N; (0x80 + (cp / 0x1000) mod 0x40)%N;
     (0x80 + (cp / 0x40) mod 0x40)%N; (0x80 + cp mod 0x40)%N].

(** A JS string as the text of bytes that the definitions above work on:
    its UTF-8 bytes. *)
Definition text_of (s : JsString) : string :=
  string_of_list_ascii (map ascii_of_N (flat_map utf8_bytes (code_points s))).

(** The code units of a text of ASCII characters. *)
Definition units_of_string (s : string) : JsString :=
  map N_of_ascii (list_ascii_of_string s).

Definition URIError : JsError := mkError "URIError" "URI malformed".

(** [encodeURIComponent(query)] inside a template literal: it throws on a
    lone surrogate, and gives the UTF-8 bytes of the query otherwise
    (which the browser writes with percent escapes; a [Url] names the
    request by the text itself). *)
Definition encoded (query : JsString) : M string :=
  if isWellFormed query then ret (text_of query) else throw URIError.

(** Lines 76-99, for the query of the page. *)
Definition executeParallelSearches_start_raw (query : JsString)
    (cfg : SearchConfig) : M (list SearchPromise) :=
  let headers := [("Authorization", ("Bearer " ++ token cfg)%string)] in
  current <- get_currentSearchController ;;
  match current with
  | Some c => abort c
  | None => ret tt
  end ;;
  c <- new_AbortController ;;
  set_currentSearchController (Some c) ;;
  let options := [("headers", IHeaders headers); ("signal", ISignal c)] in
  pages <-
    (if wants_pages (selectedOption cfg) then
       text <- encoded query ;;
       pagePromise <- optimizedFetch_issue (pageUrl text cfg) options ;;
       ret [mkPromise "page" pagePromise]
     else ret []) ;;
  cms <-
    (if wants_collection (selectedOption cfg) then
       text <- encoded query ;;
       cmsPromise <- optimizedFetch_issue (cmsUrl text cfg) options ;;
       ret [mkPromise "cms" cmsPromise]
     else ret []) ;;
  ret (pages ++ cms).

(** The network with its bodies: besides the replies, whether the body of
    the response that [optimizedFetch] returned for a URL ever arrives. *)
Record Wire : Type := mkWire {
  wire_net : Network;
  body_arrives : Url -> bool
}.

(** [await response.json()] on that network: it resolves or rejects when
    the body arrives, and stays pending when it does not. *)
Definition json_raw (wire : Wire) (url : Url) (response : Response)
  : M Json :=
  if body_arrives wire url then json response
  else fun w => (Hangs, w).

(** The callback of [searchPromises.map], lines 102-114. *)
Definition settle_search_raw (wire : Wire) (sp : SearchPromise)
  : M SubResult :=
  let type := sp_type sp in
  try_catch
    (response <-
       optimizedFetch_settle (wire_net wire) 1 0 (sp_promise sp) ;;
     if ok response then
       data <- json_raw wire (p_url (sp_promise sp)) response ;;
       r <- get_results data ;;
       ret (mkSub type (or_empty_array r) true None)
     else
       ret (mkSub type (JArr []) false (Some (statusText response))))
    (fun error =>
       ret (mkSub type (JArr []) false (Some (err_message error)))).

(** Lines 101-125. *)
Definition executeParallelSearches_finish_raw (wire : Wire)
    (searchPromises : list SearchPromise) : M (list JsObject) :=
  advance (elapsed (wire_net wire)) ;;
  results <- allSettled (map (settle_search_raw wire) searchPromises) ;;
  merge_results results [].

Definition executeParallelSearches_raw (wire : Wire) (query : JsString)
    (cfg : SearchConfig) : M (list JsObject) :=
  searchPromises <- executeParallelSearches_start_raw query cfg ;;
  executeParallelSearches_finish_raw wire searchPromises.

(** ** The callers that write the cache (lines 1281-1482) *)

(** [performSearchFast], for the query it settles on (the trimmed input, or
    the [q] parameter of the page URL). *)
Definition performSearchFast (net : Network) (query : string)
    (cfg : SearchConfig) : M unit :=
  if String.eqb query "" then ret tt
  else
    cachedResults <- lookup_cache query (selectedOption cfg) ;;
    match cachedResults with
    | Some cachedResults =>
        emit EvClearResults ;;
        if Nat.eqb (List.length cachedResults) 0 then emit EvRenderNoResults
        else emit (EvRenderResults cachedResults)
    | None =>
        emit (EvSpinner true) ;;
        emit EvClearResults ;;
        try_catch
          (allResults <- executeParallelSearches net query cfg ;;
           if Nat.eqb (List.length allResults) 0 then
             emit (EvSpinner false) ;;
             emit EvRenderNoResults
           else
             store_cache query (selectedOption cfg) allResults ;;
             emit (EvRenderResults allResults) ;;
             emit (EvSpinner false))
          (fun error =>
             emit EvRenderError ;;
             emit (EvSpinner false))
    end.

(** [preloadSearchData(query)], as written. *)
Definition preloadSearchData (net : Network) (query : string)
    (cfg : SearchConfig) : M unit :=
  try_catch
    (emit (EvIndicator true) ;;
     allResults <- executeParallelSearches net query cfg ;;
     store_cache query (selectedOption cfg) allResults ;;
     emit (EvIndicator false))
    (fun error => emit (EvIndicator false)).

(** [preloadSearchData] cut at its [await]: what runs when it is called,
    and what runs once the sub-requests have settled. *)
Definition preloadSearchData_begin (query : string) (cfg : SearchConfig)
  : M (list SearchPromise) :=
  emit (EvIndicator true) ;;
  executeParallelSearches_start query cfg.

Definition preloadSearchData_resume (net : Network) (query : string)
    (cfg : SearchConfig) (searchPromises : list SearchPromise) : M unit :=
  try_catch
    (allResults <- executeParallelSearches_finish net searchPromises ;;
     store_cache query (selectedOption cfg) allResults ;;
     emit (EvIndicator false))
    (fun error => emit (EvIndicator false)).

(** The two callers over the search as the browser runs it.  The cache is
    keyed by the text of the query, as [cacheKey] has it. *)
Definition performSearchFast_raw (wire : Wire) (query : JsString)
    (cfg : SearchConfig) : M unit :=
  match query with
  | [] => ret tt
  | _ =>
      cachedResults <- lookup_cache (text_of query) (selectedOption cfg) ;;
      match cachedResults with
      | Some cachedResults =>
          emit EvClearResults ;;
          if Nat.eqb (List.length cachedResults) 0 then emit EvRenderNoResults
          else emit (EvRenderResults cachedResults)
      | None =>
          emit (EvSpinner true) ;;
          emit EvClearResults ;;
          try_catch
            (allResults <- executeParallelSearches_raw wire query cfg ;;
             if Nat.eqb (List.length allResults) 0 then
               emit (EvSpinner false) ;;
               emit EvRenderNoResults
             else
               store_cache (text_of query) (selectedOption cfg) allResults ;;
               emit (EvRenderResults allResults) ;;
               emit (EvSpinner false))
            (fun error =>
               emit EvRenderError ;;
               emit (EvSpinner false))
      end
  end.

Definition preloadSearchData_raw (wire : Wire) (query : JsString)
    (cfg : SearchConfig) : M unit :=
  try_catch
    (emit (EvIndicator true) ;;
     allResults <- executeParallelSearches_raw wire query cfg ;;
     store_cache (text_of query) (selectedOption cfg) allResults ;;
     emit (EvIndicator false))
    (fun error => emit (EvIndicator false)).

(** ** The renderer's arithmetic (renderResultsFast, lines 221-560) *)

(** [Math.ceil(a / b)] for integers [a] and [b <> 0]. *)
Definition ceil_div (a b : Z) : Z := (- ((- a) / b))%Z.

(** How [slice] reads an index: a negative one counts from the end. *)
Definition slice_index (len i : Z) : Z :=
  if (i <? 0)%Z then Z.max (len + i) 0 else Z.min i len.

(** [array.slice(start, stop)] *)
Definition slice {A : Type} (l : list A) (start stop : Z) : list A :=
  let len := Z.of_nat (List.length l) in
  let from := slice_index len start in
  let to := slice_index len stop in
  firstn (Z.to_nat (to - from)) (skipn (Z.to_nat from) l).

(** [maxItems ? Math.ceil(results.length / maxItems) : 1] *)
Definition totalPages (len maxItems : Z) : Z :=
  if (maxItems =? 0)%Z then 1%Z else ceil_div len maxItems.

(** [Math.max(1, Math.min(currentPage, totalPages))] *)
Definition clampPage (len maxItems currentPage : Z) : Z :=
  Z.max 1 (Z.min currentPage (totalPages len maxItems)).

Definition startIndex (len maxItems currentPage : Z) : Z :=
  if (maxItems =? 0)%Z then 0%Z
  else ((clampPage len maxItems currentPage - 1) * maxItems)%Z.

Definition endIndex (len maxItems currentPage : Z) : Z :=
  if (maxItems =? 0)%Z then len
  else (startIndex len maxItems currentPage + maxItems)%Z.

(** The items of the page that [renderResultsFast] draws, lines 222-229;
    for no results it draws nothing. *)
Definition pagedResults {A : Type} (results : list A)
    (maxItems currentPage : Z) : list A :=
  let len := Z.of_nat (List.length results) in
  match results with
  | [] => []
  | _ =>
      slice results (startIndex len maxItems currentPage)
            (endIndex len maxItems currentPage)
  end.

(** Is the Load More button drawn (line 497)? *)
Definition load_more_shown (len maxItems currentPage : Z) : bool :=
  (endIndex len maxItems currentPage <? len)%Z.

(** What a click on Load More passes as [maxItems] (line 553); the page
    is 1 again. *)
Definition load_more_next (len maxItems currentPage : Z) : Z :=
  (endIndex len maxItems currentPage + maxItems)%Z.

(** [maxItems] after [clicks] clicks on Load More, starting on page 1. *)
Fixpoint load_more_after (len maxItems : Z) (clicks : nat) : Z :=
  match clicks with
  | O => maxItems
  | S clicks' =>
      load_more_next len (load_more_after len maxItems clicks') 1
  end.

(** The first and the last numbered button, lines 459-465. *)
Definition page_window (totalPages currentPage : Z) : Z * Z :=
  let maxVisiblePages := Z.min 7 totalPages in
  let startPage := Z.max 1 (currentPage - maxVisiblePages / 2)%Z in
  let endPage := Z.min totalPages (startPage + maxVisiblePages - 1)%Z in
  let startPage :=
    if (endPage - startPage <? maxVisiblePages - 1)%Z
    then Z.max 1 (endPage - maxVisiblePages + 1)%Z
    else startPage in
  (startPage, endPage).

(** [for (let i = startPage; i <= endPage; i++)] *)
Definition pages_from_to (startPage endPage : Z) : list Z :=
  map (fun i => (startPage + Z.of_nat i)%Z)
      (seq 0 (Z.to_nat (endPage - startPage + 1))).

(** The [data-page] of every button of the numbered pagination, in the
    order they are drawn (lines 452-495): previous, first, the window,
    last, next. *)
Definition page_buttons (totalPages currentPage : Z) : list Z :=
  if (1 <? totalPages)%Z && (totalPages <=? 100)%Z then
    let '(startPage, endPage) := page_window totalPages currentPage in
    (if (1 <? currentPage)%Z then [(currentPage - 1)%Z] else [])
    ++ (if (1 <? startPage)%Z then [1%Z] else [])
    ++ pages_from_to startPage endPage
    ++ (if (endPage <? totalPages)%Z then [totalPages] else [])
    ++ (if (currentPage <? totalPages)%Z then [(currentPage + 1)%Z] else [])
  else [].

(** [getResponsiveGridColumns], lines 238-248, for the window width and
    the configured number of columns. *)
Definition getResponsiveGridColumns (innerWidth gridColumns : Z) : Z :=
  let screenWidth := if (innerWidth =? 0)%Z then 1200%Z else innerWidth in
  let maxColumns :=
    Z.max 1 (Z.min (if (gridColumns =? 0)%Z then 3%Z else gridColumns) 6) in
  if (screenWidth <=? 480)%Z then 1%Z
  else if (screenWidth <=? 675)%Z then 1%Z
  else if (screenWidth <=? 768)%Z then Z.min maxColumns 2
  else if (screenWidth <=? 1024)%Z then Z.min maxColumns 3
  else if (screenWidth <=? 1440)%Z then Z.min maxColumns 4
  else maxColumns.

(** ** Reading a result item (lines 195-218, 270-273) *)

(** [v.k] for a value that is neither [null] nor [undefined] and a name
    [k] that is neither an index nor [length]: only objects have it. *)
Definition get_prop (v : Json) (k : string) : option Json :=
  match v with
  | JObj props => JsMap.get props k
  | _ => None
  end.

(** Truthiness of a value that may be [undefined]. *)
Definition truthy_opt (v : option Json) : bool :=
  match v with
  | Some x => truthy x
  | None => false
  end.

(** [a || b] *)
Definition js_or (a : option Json) (b : Json) : Json :=
  match a with
  | Some x => if truthy x then x else b
  | None => b
  end.

(** [item.name || item.title || item.heading || item.headline ||
     item.label || "Untitled"] *)
Definition titleText (item : JsObject) : Json :=
  js_or (JsMap.get item "name")
    (js_or (JsMap.get item "title")
       (js_or (JsMap.get item "heading")
          (js_or (JsMap.get item "headline")
             (js_or (JsMap.get item "label") (JStr "Untitled"))))).

(** [v === 'page'] *)
Definition is_page (v : option Json) : bool :=
  match v with
  | Some (JStr s) => String.eqb s "page"
  | _ => false
  end.

(** [item._type === 'page' ? (item.publishedPath || item.slug || "#")
                           : (item.detailUrl || "#")] *)
Definition detailUrl (item : JsObject) : Json :=
  if is_page (JsMap.get item "_type") then
    js_or (JsMap.get item "publishedPath")
      (js_or (JsMap.get item "slug") (JStr "#"))
  else js_or (JsMap.get item "detailUrl") (JStr "#").

(** [typeof value === 'object' && value !== null && value.url] *)
Definition has_url (value : Json) : bool :=
  match value with
  | JObj _ | JArr _ => truthy_opt (get_prop value "url")
  | _ => false
  end.

(** The loop of lines 211-215 over [Object.entries(item)]. *)
Definition first_with_url (item : JsObject) : Json :=
  match find (fun kv => has_url (snd kv)) item with
  | Some (_, value) => value
  | None => JNull
  end.

(** Lines 206-217: the featured image, or else the loop. *)
Definition featured_or_first (item : JsObject) : Json :=
  match JsMap.get item "featuredImage" with
  | Some featuredImage =>
      if truthy featuredImage then featuredImage else first_with_url item
  | None => first_with_url item
  end.

(** [getPrimaryImage(item)]; [JNull] is [null]. *)
Definition getPrimaryImage (item : JsObject) : Json :=
  match JsMap.get item "images" with
  | Some images =>
      if truthy images then
        match images with
        | JArr (first :: _) => first
        | _ =>
            if truthy_opt (get_prop images "url") then images
            else featured_or_first item
        end
      else featured_or_first item
  | None => featured_or_first item
  end.

(** ** The content snippet (lines 144-173) *)

(** [s.slice(start, stop)] for [0 <= start <= stop]. *)
Definition string_slice (s : string) (start stop : nat) : string :=
  substring start (stop - start) s.

(** [extractContentSnippet(content, searchQuery, maxLength)], for strings.
    Two things of the browser are parameters here: [stripHtml], the text
    it makes of the markup (a [div]'s [textContent]), and [lower], its
    [String.prototype.toLowerCase], which may change the length of a
    string. *)
Definition extractContentSnippet (stripHtml lower : string -> string)
    (content searchQuery : string) (maxLength : nat) : string :=
  if String.eqb content "" || String.eqb searchQuery "" then ""
  else
    let cleanContent := stripHtml content in
    let query := lower searchQuery in
    let contentLower := lower cleanContent in
    match index 0 query contentLower with
    | None =>
        (string_slice cleanContent 0 maxLength
         ++ (if Nat.ltb maxLength (String.length cleanContent)
             then "..." else ""))%string
    | Some queryIndex =>
        let start := queryIndex - 50 in
        let stop :=
          Nat.min (String.length cleanContent)
                  (queryIndex + String.length query + 50) in
        let snippet := string_slice cleanContent start stop in
        let snippet :=
          if Nat.ltb 0 start then ("..." ++ snippet)%string else snippet in
        let snippet :=
          if Nat.ltb stop (String.length cleanContent)
          then (snippet ++ "...")%string else snippet in
        snippet
    end.

(** ** Debouncing the preload (lines 1408-1424, 1490-1504) *)

(** The timers of the page: the ones that are set and have not fired or
    been cleared, each with the query it will preload and its delay. *)
Record Timers : Type := mkTimers {
  next_timer : nat;
  active : list (nat * (string * Z));
  searchDebounceTimer : option nat
}.

Definition no_timers : Timers := mkTimers 0 [] None.

(** [clearTimeout(id)]; an id that is not active, or [undefined], clears
    nothing. *)
Definition clearTimeout (id : option nat) (t : Timers) : Timers :=
  match id with
  | Some i =>
      mkTimers (next_timer t)
               (filter (fun e => negb (Nat.eqb (fst e) i)) (active t))
               (searchDebounceTimer t)
  | None => t
  end.

(** [query.length <= 2 ? 50 : Math.min(query.length * 15, 200)] *)
Definition debounce_delay (query : string) : Z :=
  let n := Z.of_nat (String.length query) in
  if (n <=? 2)%Z then 50%Z else Z.min (n * 15) 200.

(** [optimizedDebouncedSearch()]; [query] is what the function reads for
    itself at line 1413: the trimmed value of the first
    [input[name='query']] of the document, or the empty string when there
    is none. *)
Definition optimizedDebouncedSearch (query : string) (t : Timers) : Timers :=
  let t := clearTimeout (searchDebounceTimer t) t in
  if Nat.leb 2 (String.length query) then
    mkTimers (S (next_timer t))
             (active t ++ [(next_timer t, (query, debounce_delay query))])
             (Some (next_timer t))
  else t.

(** The input listener of lines 1490-1504, as far as timers go.  [query]
    is the trimmed value of the input the listener is on (the one inside
    the wrapper, line 898); [documentQuery] is what
    [optimizedDebouncedSearch] then reads from the document, which is the
    same text only when that input is the first of the document. *)
Definition on_input (query documentQuery : string) (t : Timers) : Timers :=
  if Nat.leb 2 (String.length query)
  then optimizedDebouncedSearch documentQuery t
  else t.

(** A timer fires: it is no longer active (its callback preloads). *)
Definition fire (id : nat) (t : Timers) : Timers :=
  mkTimers (next_timer t)
           (filter (fun e => negb (Nat.eqb (fst e) id)) (active t))
           (searchDebounceTimer t).

Inductive PageEvent : Type :=
| Typed (query documentQuery : string)
| Fired (id : nat).

Definition page_step (t : Timers) (e : PageEvent) : Timers :=
  match e with
  | Typed query documentQuery => on_input query documentQuery t
  | Fired id => fire id t
  end.

(** At most one timer is active, and it is the one the page remembers. *)
Definition debounced (t : Timers) : Prop :=
  List.length (active t) <= 1
  /\ forall e, In e (active t) -> searchDebounceTimer t = Some (fst e).

(** The timers after a run of events on a freshly loaded page. *)
Definition timers_after (events : list PageEvent) : Timers :=
  fold_left page_step events no_timers.

(** ** The visitor id (lines 790-797) *)

(** [localStorage]: string keys, string values. *)
Definition Storage : Type := JsMap.Map string.

(** [getOrCreateVisitorId()], where [uuid] is what [crypto.randomUUID()]
    would return; the id and the storage after the call. *)
Definition getOrCreateVisitorId (uuid : string) (localStorage : Storage)
  : string * Storage :=
  match JsMap.get localStorage "visitorId" with
  | Some visitorId =>
      if String.eqb visitorId "" then
        (uuid, JsMap.set localStorage "visitorId" uuid)
      else (visitorId, localStorage)
  | None => (uuid, JsMap.set localStorage "visitorId" uuid)
  end.

(** * Vocabulary of the statements *)

(** ** Runs of store calls *)

Definition entry_of (s : StoreCall) : string * CacheEntry :=
  (store_key s, mkEntry (sc_results s) (sc_now s)).

(** [n] distinct queries: a, aa, aaa, ... *)
Fixpoint letters (n : nat) : string :=
  match n with
  | O => EmptyString
  | S n' => String "a" (letters n')
  end.

Definition nth_store (i : nat) : StoreCall :=
  mkStore (letters (S i)) "Pages" [] (Z.of_nat i).

Definition stores (n : nat) : list StoreCall := map nth_store (seq 0 n).

(** The cache after [MAX_CACHE_SIZE] stores under distinct keys. *)
Definition full_cache : Cache := store_all (stores MAX_CACHE_SIZE) JsMap.empty.

Fixpoint distinct (l : list string) : bool :=
  match l with
  | [] => true
  | x :: l' => negb (existsb (String.eqb x) l') && distinct l'
  end.

Fixpoint no_underscore (s : string) : bool :=
  match s with
  | EmptyString => true
  | String c s' => negb (Ascii.eqb c "_") && no_underscore s'
  end.

(** ** Behaviours of the network *)

Definition is_abort (e : JsError) : bool :=
  String.eqb (err_name e) "AbortError".

(** How one attempt ends when nothing aborts it from outside: a silent
    network ends it by the timer, with an [AbortError]. *)
Definition attempt_outcome (rp : NetReply) : Outcome Response :=
  match rp with
  | Replies r => Returns r
  | NetFails e => Throws e
  | NoReply => Throws AbortError
  end.

(** How [optimizedFetch(url, options)] ends, by the replies to its first
    and second attempt. *)
Definition fetch_outcome (net : Network) (url : Url) : Outcome Response :=
  match attempt_outcome (reply net url 0) with
  | Throws e =>
      if is_abort e then Throws e else attempt_outcome (reply net url 1)
  | o => o
  end.

(** What the callback of [searchPromises.map] makes of that end. *)
Definition sub_result (type : string) (o : Outcome Response) : SubResult :=
  match o with
  | Returns r =>
      if ok r then
        match resp_json r with
        | Some JNull =>
            mkSub type (JArr []) false (Some "Cannot read properties of null")
        | Some (JObj props) =>
            mkSub type (or_empty_array (JsMap.get props "results")) true None
        | Some _ => mkSub type (JArr []) true None
        | None =>
            mkSub type (JArr []) false (Some "Unexpected end of JSON input")
        end
      else mkSub type (JArr []) false (Some (statusText r))
  | Throws e => mkSub type (JArr []) false (Some (err_message e))
  | Hangs => mkSub type (JArr []) false None
  end.

(** The settled sub-requests of a search, in the order they were pushed. *)
Definition expected_results (net : Network) (query : string)
    (cfg : SearchConfig) : list (Settled SubResult) :=
  (if wants_pages (selectedOption cfg)
   then [fulfilled (sub_result "page" (fetch_outcome net (pageUrl query cfg)))]
   else [])
  ++
  (if wants_collection (selectedOption cfg)
   then [fulfilled (sub_result "cms" (fetch_outcome net (cmsUrl query cfg)))]
   else []).


(** An attempt that brings nothing: a non-2xx status, a body that does not
    parse, a network error, or no reply before the timer. *)
Inductive broken : NetReply -> Prop :=
| broken_status r : ok r = false -> broken (Replies r)
| broken_parse r : ok r = true -> resp_json r = None -> broken (Replies r)
| broken_network e : broken (NetFails e)
| broken_timeout : broken NoReply.


(** The sub-request for [url] fails: its first attempt brings nothing and,
    where the code tries again, so does the second. *)
Inductive sub_fails (net : Network) (url : Url) : Prop :=
| fails_response r :
    reply net url 0 = Replies r -> broken (Replies r) -> sub_fails net url
| fails_timeout :
    reply net url 0 = NoReply -> sub_fails net url
| fails_abort e :
    reply net url 0 = NetFails e -> is_abort e = true -> sub_fails net url
| fails_twice e :
    reply net url 0 = NetFails e -> is_abort e = false ->
    broken (reply net url 1) -> sub_fails net url.


(** The upstream contract on bodies: in every response whose body is an
    object, the [results] member is missing, falsy, or an array. *)
Definition results_are_arrays (net : Network) : Prop :=
  forall url n r props v,
    reply net url n = Replies r ->
    resp_json r = Some (JObj props) ->
    JsMap.get props "results" = Some v ->
    truthy v = true ->
    exists items, v = JArr items.

(** ** Worlds *)

(** The pending fetch listens to its own controller, which exists and has
    not been aborted. *)
Definition fresh_in (w : World) (p : Pending) : Prop :=
  signal_of (p_init p) = Some (p_controller p)
  /\ p_controller p < List.length (controllers w)
  /\ aborted w (p_controller p) = false.

(** From [w] to [w']: controllers are only added, no controller of [w] but
    [c0] changes, and cache, current controller and clock stay. *)
Definition keeps (c0 : nat) (w w' : World) : Prop :=
  List.length (controllers w) <= List.length (controllers w')
  /\ (forall c, c < List.length (controllers w) -> c <> c0 ->
                aborted w' c = aborted w c)
  /\ searchCache w' = searchCache w
  /\ currentSearchController w' = currentSearchController w
  /\ clock w' = clock w.

Fixpoint fetch_count (events : list Event) : nat :=
  match events with
  | [] => 0
  | EvFetch _ _ :: events' => S (fetch_count events')
  | _ :: events' => fetch_count events'
  end.

(** Does [optimizedFetch] make a second attempt at [url]?  It does when
    the first ends in an error that is not an [AbortError]. *)
Definition retried (net : Network) (url : Url) : bool :=
  match reply net url 0 with
  | NetFails e => negb (is_abort e)
  | _ => false
  end.

(** What one attempt with controller [c] adds to the log. *)
Definition attempt_events (url : Url) (options : FetchInit) (c : nat)
  : list Event :=
  [EvSetTimeout 10000; EvFetch url (fetch_init options c); EvClearTimeout].

Definition controller_of (sp : SearchPromise) : nat :=
  p_controller (sp_promise sp).

Definition settled_as (net : Network) (sp : SearchPromise)
  : Settled SubResult :=
  fulfilled (sub_result (sp_type sp)
               (fetch_outcome net (p_url (sp_promise sp)))).

(** The sub-requests that a search for [query] issues, in the order they
    are pushed. *)
Definition requested (query : string) (cfg : SearchConfig)
  : list (string * Url) :=
  (if wants_pages (selectedOption cfg)
   then [("page", pageUrl query cfg)] else [])
  ++
  (if wants_collection (selectedOption cfg)
   then [("cms", cmsUrl query cfg)] else []).

Definition request_of (sp : SearchPromise) : string * Url :=
  (sp_type sp, p_url (sp_promise sp)).

(** The sub-request for [url] stalls: [optimizedFetch] returns a 2xx
    response whose body never arrives. *)
Definition stalls (wire : Wire) (url : Url) : bool :=
  match fetch_outcome (wire_net wire) url with
  | Returns r => ok r && negb (body_arrives wire url)
  | _ => false
  end.

(** How [Promise.allSettled] ends over these sub-requests: it waits for
    ever as soon as one stalls. *)
Fixpoint settled_raw (wire : Wire) (requests : list (string * Url))
  : Outcome (list (Settled SubResult)) :=
  match requests with
  | [] => Returns []
  | (type, url) :: requests' =>
      if stalls wire url then Hangs
      else
        match settled_raw wire requests' with
        | Returns rest =>
            Returns
              (fulfilled
                 (sub_result type (fetch_outcome (wire_net wire) url))
               :: rest)
        | Throws e => Throws e
        | Hangs => Hangs
        end
  end.

(** How the search as the browser runs it ends. *)
Definition expected_raw (wire : Wire) (query : JsString)
    (cfg : SearchConfig) : Outcome (list JsObject) :=
  if isWellFormed query
     || negb (wants_pages (selectedOption cfg)
              || wants_collection (selectedOption cfg))
  then
    match settled_raw wire (requested (text_of query) cfg) with
    | Returns results => fst (merge_results results [] initial_world)
    | Throws e => Throws e
    | Hangs => Hangs
    end
  else Throws URIError.

Fixpoint timers_set (events : list Event) : nat :=
  match events with
  | [] => 0
  | EvSetTimeout _ :: events' => S (timers_set events')
  | _ :: events' => timers_set events'
  end.

Fixpoint timers_cleared (events : list Event) : nat :=
  match events with
  | [] => 0
  | EvClearTimeout :: events' => S (timers_cleared events')
  | _ :: events' => timers_cleared events'
  end.

(** What a cache hit draws. *)
Definition hit_events (rs : list JsObject) : list Event :=
  [EvClearResults;
   if Nat.eqb (List.length rs) 0 then EvRenderNoResults
   else EvRenderResults rs].

(** ** Scenarios *)

Definition cfg_pages : SearchConfig :=
  mkConfig "Pages" "site" "token" "" "" "".

Definition cfg_both : SearchConfig :=
  mkConfig "Both" "site" "token" "" "" "".

Definition item_a : Json := JObj [("name", JStr "a")].
Definition item_b : Json := JObj [("name", JStr "b")].

Definition ok_with (v : Json) : NetReply :=
  Replies (mkResponse 200 "OK" (Some (JObj [("results", v)]))).

Definition unavailable : NetReply :=
  Replies (mkResponse 503 "Service Unavailable" None).

(** Pages answer with [a, b]; collections answer 503. *)
Definition net_pages_only : Network :=
  mkNetwork
    (fun url _ =>
       match url with
       | SearchIndex _ _ => ok_with (JArr [item_a; item_b])
       | SearchCms _ _ _ _ _ => unavailable
       end)
    120.

(** Every request is answered 503. *)
Definition net_unavailable : Network := mkNetwork (fun _ _ => unavailable) 120.

(** Every request is answered 200 with no results. *)
Definition net_no_matches : Network :=
  mkNetwork (fun _ _ => ok_with (JArr [])) 120.

(** Every request is answered 200 with a string where the array should
    be. *)
Definition net_results_string : Network :=
  mkNetwork (fun _ _ => ok_with (JStr "x")) 120.

(** The first attempt fails in the network, the second is answered with
    one item. *)
Definition net_flaky : Network :=
  mkNetwork
    (fun _ n =>
       match n with
       | O => NetFails (mkError "TypeError" "Failed to fetch")
       | S _ => ok_with (JArr [item_a])
       end)
    450.

(** Replies as [net]; every body arrives. *)
Definition wire_of (net : Network) : Wire := mkWire net (fun _ => true).

(** Replies as [net_pages_only], headers only: no body ever arrives. *)
Definition wire_stalled : Wire := mkWire net_pages_only (fun _ => false).

(** The query "shoes" as the page holds it. *)
Definition query_shoes : JsString := units_of_string "shoes".

(** "shoes" followed by the first half of a surrogate pair, as a cut in
    the middle of an emoji leaves it. *)
Definition query_cut_emoji : JsString :=
  units_of_string "shoes" ++ [0xD83D%N].

(** The preload of "ab" is called, then the preload of "abc" is called
    while the request of the first is outstanding, then the first request
    is answered and the first preload resumes. *)
Definition superseded_preload : M unit :=
  first <- preloadSearchData_begin "ab" cfg_pages ;;
  second <- preloadSearchData_begin "abc" cfg_pages ;;
  preloadSearchData_resume net_pages_only "ab" cfg_pages first.

(** * Lemmas *)

(** ** The [Map] operations *)

Section MapFacts.
Context {V : Type}.
Implicit Types (m : JsMap.Map V) (k : string) (v : V).

Lemma get_set_same m k v : JsMap.get (JsMap.set m k v) k = Some v.
Proof.
  induction m as [|[k' v'] m IH]; simpl.
  - now rewrite String.eqb_refl.
  - destruct (String.eqb k' k) eqn:E; simpl.
    + now rewrite String.eqb_refl.
    + now rewrite E.
Qed.

Lemma get_set_other m k k' v :
  k' <> k -> JsMap.get (JsMap.set m k v) k' = JsMap.get m k'.
Proof.
  intros Hne. induction m as [|[k0 v0] m IH]; simpl.
  - destruct (String.eqb k k') eqn:E; [|reflexivity].
    apply String.eqb_eq in E. congruence.
  - destruct (String.eqb k0 k) eqn:E; simpl.
    + apply String.eqb_eq in E. subst k0.
      destruct (String.eqb k k') eqn:E'; [|reflexivity].
      apply String.eqb_eq in E'. congruence.
    + now rewrite IH.
Qed.

Lemma get_delete_same m k : JsMap.get (JsMap.delete m k) k = None.
Proof.
  induction m as [|[k0 v0] m IH]; simpl; [reflexivity|].
  destruct (String.eqb k0 k) eqn:E; simpl; [assumption|].
  now rewrite E.
Qed.

Lemma get_delete_other m k k' :
  k' <> k -> JsMap.get (JsMap.delete m k) k' = JsMap.get m k'.
Proof.
  intros Hne. induction m as [|[k0 v0] m IH]; simpl; [reflexivity|].
  destruct (String.eqb k0 k) eqn:E; simpl.
  - apply String.eqb_eq in E. subst k0.
    destruct (String.eqb k k') eqn:E'; [|assumption].
    apply String.eqb_eq in E'. congruence.
  - now rewrite IH.
Qed.

Lemma get_none_iff m k : JsMap.get m k = None <-> ~ In k (JsMap.keys m).
Proof.
  induction m as [|[k0 v0] m IH]; simpl.
  - tauto.
  - destruct (String.eqb k0 k) eqn:E.
    + apply String.eqb_eq in E. split; [discriminate | tauto].
    + apply String.eqb_neq in E. rewrite IH. tauto.
Qed.

Lemma size_set_le m k v : JsMap.size (JsMap.set m k v) <= S (JsMap.size m).
Proof.
  unfold JsMap.size.
  induction m as [|[k0 v0] m IH]; simpl; [lia|].
  destruct (String.eqb k0 k); simpl; lia.
Qed.

Lemma size_delete_le m k : JsMap.size (JsMap.delete m k) <= JsMap.size m.
Proof. apply filter_length_le. Qed.

Lemma size_delete_first m k :
  JsMap.first_key m = Some k -> S (JsMap.size (JsMap.delete m k)) <= JsMap.size m.
Proof.
  destruct m as [|[k0 v0] m]; simpl; [discriminate|].
  intros [= ->]. unfold JsMap.size, JsMap.delete. simpl.
  rewrite String.eqb_refl. simpl.
  pose proof (filter_length_le
                (fun kv : string * V => negb (String.eqb (fst kv) k)) m).
  lia.
Qed.

Lemma set_new m k v :
  ~ In k (JsMap.keys m) -> JsMap.set m k v = m ++ [(k, v)].
Proof.
  induction m as [|[k0 v0] m IH]; simpl; [reflexivity|].
  intros Hn. destruct (String.eqb k0 k) eqn:E.
  - apply String.eqb_eq in E. tauto.
  - rewrite IH; tauto.
Qed.

Lemma delete_absent m k :
  ~ In k (JsMap.keys m) -> JsMap.delete m k = m.
Proof.
  induction m as [|[k0 v0] m IH]; simpl; [reflexivity|].
  intros Hn. destruct (String.eqb k0 k) eqn:E; simpl.
  - apply String.eqb_eq in E. tauto.
  - rewrite IH; tauto.
Qed.
End MapFacts.

(** ** Runs of [setCachedResults] *)

Lemma MAX_CACHE_SIZE_pos : 0 < MAX_CACHE_SIZE.
Proof. unfold MAX_CACHE_SIZE. lia. Qed.

Lemma size_set_ge {V : Type} (m : JsMap.Map V) k v :
  JsMap.size m <= JsMap.size (JsMap.set m k v).
Proof.
  unfold JsMap.size.
  induction m as [|[k0 v0] m IH]; simpl; [lia|].
  destruct (String.eqb k0 k); simpl; lia.
Qed.

Lemma size_setCachedResults query opt rs now (c : Cache) :
  JsMap.size c <= MAX_CACHE_SIZE ->
  JsMap.size (setCachedResults query opt rs now c) <= MAX_CACHE_SIZE.
Proof.
  intros Hc. unfold setCachedResults.
  destruct (Nat.leb MAX_CACHE_SIZE (JsMap.size c)) eqn:E.
  - apply Nat.leb_le in E.
    destruct (JsMap.first_key c) as [firstKey|] eqn:F.
    + pose proof (size_delete_first c firstKey F) as Hd.
      pose proof (size_set_le (JsMap.delete c firstKey)
                              (cacheKey query opt) (mkEntry rs now)) as Hs.
      lia.
    + destruct c as [|[k0 v0] c]; [|discriminate].
      pose proof MAX_CACHE_SIZE_pos. unfold JsMap.size in E. simpl in E. lia.
  - apply Nat.leb_gt in E.
    pose proof (size_set_le c (cacheKey query opt) (mkEntry rs now)). lia.
Qed.

Lemma store_all_size calls : forall c : Cache,
  JsMap.size c <= MAX_CACHE_SIZE ->
  JsMap.size (store_all calls c) <= MAX_CACHE_SIZE.
Proof.
  induction calls as [|s calls IH]; intros c Hc; simpl; [assumption|].
  apply IH. now apply size_setCachedResults.
Qed.

Lemma keys_entries (l : list StoreCall) :
  JsMap.keys (map entry_of l) = map store_key l.
Proof. unfold JsMap.keys. rewrite map_map. reflexivity. Qed.

Lemma get_entries (l : list StoreCall) (s : StoreCall) :
  NoDup (map store_key l) -> In s l ->
  JsMap.get (map entry_of l) (store_key s)
  = Some (mkEntry (sc_results s) (sc_now s)).
Proof.
  induction l as [|a l IH]; intros Hnd Hin; [contradiction|].
  simpl in Hnd. inversion Hnd as [|? ? Hfresh Hnd']; subst.
  simpl. destruct Hin as [->|Hin].
  - now rewrite String.eqb_refl.
  - destruct (String.eqb (store_key a) (store_key s)) eqn:E.
    + apply String.eqb_eq in E. exfalso. apply Hfresh. rewrite E.
      now apply in_map.
    + now apply IH.
Qed.

Lemma store_snoc (l : list StoreCall) (s : StoreCall) (c : Cache) :
  store_all (l ++ [s]) c = store (store_all l c) s.
Proof. unfold store_all. now rewrite fold_left_app. Qed.

Lemma NoDup_snoc {A : Type} (l : list A) (x : A) :
  NoDup (l ++ [x]) -> NoDup l /\ ~ In x l.
Proof.
  intros H. split.
  - now apply NoDup_app_remove_r in H.
  - apply NoDup_remove_2 with (l' := []) in H. now rewrite app_nil_r in H.
Qed.

(** Below capacity, storing under a fresh key adds the entry at the end. *)
Lemma store_fresh_below (l : list StoreCall) (s : StoreCall) :
  List.length l < MAX_CACHE_SIZE ->
  ~ In (store_key s) (map store_key l) ->
  store (map entry_of l) s = map entry_of (l ++ [s]).
Proof.
  intros Hlen Hfresh. unfold store, setCachedResults.
  replace (JsMap.size (map entry_of l)) with (List.length l)
    by (unfold JsMap.size; now rewrite length_map).
  apply Nat.leb_gt in Hlen. rewrite Hlen.
  rewrite set_new by (now rewrite keys_entries).
  now rewrite map_app.
Qed.

Lemma store_all_fresh (calls : list StoreCall) :
  NoDup (map store_key calls) ->
  List.length calls <= MAX_CACHE_SIZE ->
  store_all calls JsMap.empty = map entry_of calls.
Proof.
  induction calls as [|s l IH] using rev_ind; intros Hnd Hlen.
  - reflexivity.
  - rewrite map_app in Hnd. simpl in Hnd.
    apply NoDup_snoc in Hnd as [Hnd Hfresh].
    rewrite length_app in Hlen. simpl in Hlen.
    rewrite store_snoc, IH by (assumption || lia).
    apply store_fresh_below; [lia | assumption].
Qed.

(** At capacity, storing under a fresh key drops the first entry. *)
Lemma store_fresh_at_capacity (first : StoreCall) (mid : list StoreCall)
    (last : StoreCall) :
  List.length (first :: mid) = MAX_CACHE_SIZE ->
  NoDup (map store_key (first :: mid ++ [last])) ->
  store (map entry_of (first :: mid)) last = map entry_of (mid ++ [last]).
Proof.
  intros Hlen Hnd. unfold store, setCachedResults.
  replace (JsMap.size (map entry_of (first :: mid))) with MAX_CACHE_SIZE
    by (unfold JsMap.size; now rewrite length_map).
  rewrite Nat.leb_refl.
  simpl in Hnd. inversion Hnd as [|? ? Hfirst Hnd']; subst.
  rewrite map_app in Hfirst, Hnd'. simpl in Hnd'.
  apply NoDup_snoc in Hnd' as [Hmid Hlast].
  simpl JsMap.first_key. cbv beta iota.
  unfold JsMap.delete. simpl filter. rewrite String.eqb_refl. simpl negb.
  cbv iota.
  change (filter _ (map entry_of mid))
    with (JsMap.delete (map entry_of mid) (store_key first)).
  rewrite delete_absent.
  - rewrite set_new by (now rewrite keys_entries). now rewrite map_app.
  - rewrite keys_entries. intros Hin. apply Hfirst.
    apply in_or_app. now left.
Qed.

Lemma distinct_NoDup (l : list string) : distinct l = true -> NoDup l.
Proof.
  induction l as [|x l IH]; simpl; intros H; constructor.
  - apply andb_prop in H as [H _]. intros Hin.
    apply negb_true_iff in H.
    assert (existsb (String.eqb x) l = true) as E; [|congruence].
    apply existsb_exists. exists x. split; [assumption|].
    apply String.eqb_refl.
  - apply andb_prop in H as [_ H]. now apply IH.
Qed.

(** ** Cache keys *)

Lemma no_underscore_app (a b : string) :
  no_underscore (a ++ String "_" b)%string = false.
Proof.
  induction a as [|c a IH]; simpl; [reflexivity|].
  rewrite IH. apply andb_false_r.
Qed.

(** A key splits at its last underscore. *)
Lemma key_split (a b o1 o2 : string) :
  no_underscore o1 = true -> no_underscore o2 = true ->
  (a ++ String "_" o1)%string = (b ++ String "_" o2)%string ->
  a = b /\ o1 = o2.
Proof.
  intros H1 H2. revert b.
  induction a as [|c a IH]; intros [|d b]; simpl; intros E.
  - injection E as E. now split.
  - injection E as Ec E. subst o1.
    rewrite no_underscore_app in H1. discriminate.
  - injection E as Ec E. subst o2.
    rewrite no_underscore_app in H2. discriminate.
  - injection E as Ec E. subst d.
    destruct (IH b E) as [-> ->]. now split.
Qed.

Lemma filterOptions_no_underscore (o : string) :
  In o filterOptions -> no_underscore o = true.
Proof.
  unfold filterOptions. simpl.
  intros [<-|[<-|[<-|[]]]]; reflexivity.
Qed.

Lemma getCachedResults_same_cache query opt t (c : Cache) :
  snd (getCachedResults query opt t c) = c.
Proof.
  unfold getCachedResults.
  destruct (JsMap.get c (cacheKey query opt)) as [e|]; [|reflexivity].
  destruct (Z.ltb (t - timestamp e) CACHE_DURATION); reflexivity.
Qed.

(** ** The cache: capacity, eviction, expiry, keys *)

(** C4 (capacity invariant).  Starting from the empty cache, after each
    call of any sequence of [setCachedResults] calls (that is, after every
    prefix of the sequence) the cache holds at most [MAX_CACHE_SIZE] = 200
    entries. *)
Theorem capacity_invariant :
  forall (calls : list StoreCall) (n : nat),
    JsMap.size (store_all (firstn n calls) JsMap.empty) <= MAX_CACHE_SIZE.
Proof.
  intros calls n. apply store_all_size.
  unfold JsMap.size, JsMap.empty. simpl. lia.
Qed.

(** C5 (FIFO eviction).  Starting from the empty cache, after
    [MAX_CACHE_SIZE + 1] stores under pairwise distinct keys, the key stored
    first is absent and every later key is present, with the entry that was
    stored under it. *)
Theorem fifo_eviction :
  forall (first : StoreCall) (rest : list StoreCall),
    List.length (first :: rest) = S MAX_CACHE_SIZE ->
    NoDup (map store_key (first :: rest)) ->
    JsMap.get (store_all (first :: rest) JsMap.empty) (store_key first) = None
    /\ forall s, In s rest ->
         JsMap.get (store_all (first :: rest) JsMap.empty) (store_key s)
         = Some (mkEntry (sc_results s) (sc_now s)).
Proof.
  intros first rest Hlen Hnd.
  assert (rest <> []) as Hne.
  { intros ->. simpl in Hlen. pose proof MAX_CACHE_SIZE_pos. lia. }
  destruct (exists_last Hne) as [mid [last ->]].
  assert (List.length (first :: mid) = MAX_CACHE_SIZE) as Hcap.
  { simpl in *. rewrite length_app in Hlen. simpl in Hlen. lia. }
  assert (store_all (first :: mid ++ [last]) JsMap.empty
          = map entry_of (mid ++ [last])) as ->.
  { change (first :: mid ++ [last]) with ((first :: mid) ++ [last]).
    rewrite store_snoc, store_all_fresh.
    - now apply store_fresh_at_capacity.
    - change (first :: mid ++ [last]) with ((first :: mid) ++ [last]) in Hnd.
      rewrite map_app in Hnd. now apply NoDup_app_remove_r in Hnd.
    - lia. }
  simpl in Hnd. inversion Hnd as [|? ? Hfirst Hrest]; subst.
  split.
  - apply get_none_iff. now rewrite keys_entries.
  - intros s Hin. now apply get_entries.
Qed.

Lemma fifo_eviction_witness :
  JsMap.get (store_all (stores (S MAX_CACHE_SIZE)) JsMap.empty) "a_Pages"
  = None
  /\ JsMap.get (store_all (stores (S MAX_CACHE_SIZE)) JsMap.empty) "aa_Pages"
     = Some (mkEntry [] 1).
Proof.
  destruct (fifo_eviction (nth_store 0)
              (map nth_store (seq 1 MAX_CACHE_SIZE))) as [H1 H2].
  - vm_compute. reflexivity.
  - apply distinct_NoDup. vm_compute. reflexivity.
  - split.
    + exact H1.
    + apply (H2 (nth_store 1)). vm_compute. left. reflexivity.
Defined.

(** C6, as stated, fails: the cache holds [MAX_CACHE_SIZE] entries, the
    key aa_Pages is one of them, and storing under aa_Pages again removes
    the entry of the oldest key a_Pages. *)
Lemma store_present_key_at_capacity_evicts :
  JsMap.size full_cache = MAX_CACHE_SIZE
  /\ JsMap.has full_cache (cacheKey "aa" "Pages") = true
  /\ JsMap.get full_cache (cacheKey "a" "Pages") = Some (mkEntry [] 0)
  /\ cacheKey "a" "Pages" <> cacheKey "aa" "Pages"
  /\ JsMap.get (setCachedResults "aa" "Pages" [] 1000 full_cache)
               (cacheKey "a" "Pages") = None
  /\ JsMap.size (setCachedResults "aa" "Pages" [] 1000 full_cache)
     = MAX_CACHE_SIZE - 1.
Proof. vm_compute. repeat split; try reflexivity. discriminate. Qed.

(** C6, amended.  A store leaves the given entry under its key.  It removes
    an existing entry of another key only when the cache already holds
    [MAX_CACHE_SIZE] entries, and then exactly the oldest-inserted one,
    whether or not the stored key is present: below capacity every other
    key keeps its entry; at capacity every key other than the stored one and
    the oldest keeps its entry, and the oldest key, if it is not the stored
    one, is gone.  The number of entries drops by at most one. *)
Theorem store_frame_condition :
  forall (query opt : string) (rs : list JsObject) (now : Z) (c : Cache),
    JsMap.get (setCachedResults query opt rs now c) (cacheKey query opt)
    = Some (mkEntry rs now)
    /\ (JsMap.size c < MAX_CACHE_SIZE ->
        forall k, k <> cacheKey query opt ->
          JsMap.get (setCachedResults query opt rs now c) k = JsMap.get c k)
    /\ (MAX_CACHE_SIZE <= JsMap.size c ->
        forall k, k <> cacheKey query opt -> JsMap.first_key c <> Some k ->
          JsMap.get (setCachedResults query opt rs now c) k = JsMap.get c k)
    /\ (MAX_CACHE_SIZE <= JsMap.size c ->
        forall k, JsMap.first_key c = Some k -> k <> cacheKey query opt ->
          JsMap.get (setCachedResults query opt rs now c) k = None)
    /\ (JsMap.wf c ->
        JsMap.size c <= S (JsMap.size (setCachedResults query opt rs now c))).
Proof.
  intros query opt rs now c. unfold setCachedResults.
  split; [apply get_set_same|].
  split; [|split; [|split]].
  - intros Hlt k Hk. apply Nat.leb_gt in Hlt. rewrite Hlt.
    now apply get_set_other.
  - intros Hge k Hk Hfirst. apply Nat.leb_le in Hge. rewrite Hge.
    rewrite get_set_other by assumption.
    destruct (JsMap.first_key c) as [firstKey|]; [|reflexivity].
    apply get_delete_other. congruence.
  - intros Hge k Hfirst Hk. apply Nat.leb_le in Hge. rewrite Hge, Hfirst.
    rewrite get_set_other by assumption. apply get_delete_same.
  - intros Hwf.
    destruct (Nat.leb MAX_CACHE_SIZE (JsMap.size c)).
    + destruct c as [|[k0 v0] c]; simpl JsMap.first_key; cbv iota.
      * simpl. lia.
      * unfold JsMap.wf in Hwf. simpl in Hwf.
        inversion Hwf as [|? ? Hfresh _]; subst.
        unfold JsMap.delete. simpl filter. rewrite String.eqb_refl.
        simpl negb. cbv iota.
        change (filter _ c) with (JsMap.delete c k0).
        rewrite (delete_absent c k0 Hfresh).
        pose proof (size_set_ge c (cacheKey query opt) (mkEntry rs now)).
        unfold JsMap.size in *. simpl. lia.
    + pose proof (size_set_ge c (cacheKey query opt) (mkEntry rs now)). lia.
Qed.

Lemma store_frame_condition_witness :
  JsMap.get (setCachedResults "aa" "Pages" [] 1000 full_cache) "a_Pages"
  = None
  /\ JsMap.get (setCachedResults "aa" "Pages" [] 1000 full_cache) "aaa_Pages"
     = JsMap.get full_cache "aaa_Pages".
Proof.
  destruct (store_frame_condition "aa" "Pages" [] 1000 full_cache)
    as (_ & _ & Hkeep & Hdrop & _).
  split.
  - apply Hdrop.
    + apply Nat.leb_le. vm_compute. reflexivity.
    + vm_compute. reflexivity.
    + vm_compute. discriminate.
  - apply Hkeep.
    + apply Nat.leb_le. vm_compute. reflexivity.
    + vm_compute. discriminate.
    + vm_compute. discriminate.
Defined.

(** C7 (expiry on lookup).  After [setCachedResults] at time [t0], a lookup
    of the same search at time [t] returns the stored results when
    [t - t0 < CACHE_DURATION] and the miss value when
    [t - t0 >= CACHE_DURATION]; in both cases, and for any cache, the lookup
    leaves the cache as it was, so the expired entry stays stored. *)
Theorem ttl_lookup :
  forall (query opt : string) (rs : list JsObject) (t0 t : Z) (c : Cache),
    (t - t0 < CACHE_DURATION ->
     getCachedResults query opt t (setCachedResults query opt rs t0 c)
     = (Some rs, setCachedResults query opt rs t0 c))%Z
    /\ (t - t0 >= CACHE_DURATION ->
        getCachedResults query opt t (setCachedResults query opt rs t0 c)
        = (None, setCachedResults query opt rs t0 c))%Z
    /\ snd (getCachedResults query opt t c) = c
    /\ JsMap.get
         (snd (getCachedResults query opt t
                 (setCachedResults query opt rs t0 c)))
         (cacheKey query opt)
       = Some (mkEntry rs t0).
Proof.
  intros query opt rs t0 t c.
  assert (JsMap.get (setCachedResults query opt rs t0 c) (cacheKey query opt)
          = Some (mkEntry rs t0)) as Hget
    by (unfold setCachedResults; apply get_set_same).
  pose proof (getCachedResults_same_cache query opt t) as Hsame.
  repeat split.
  - intros Hlt. unfold getCachedResults. rewrite Hget. simpl.
    apply Z.ltb_lt in Hlt. now rewrite Hlt.
  - intros Hge. unfold getCachedResults. rewrite Hget. simpl.
    assert (Z.ltb (t - t0) CACHE_DURATION = false) as ->
      by (apply Z.ltb_ge; lia).
    reflexivity.
  - apply Hsame.
  - rewrite Hsame. exact Hget.
Qed.

Lemma ttl_lookup_witness :
  getCachedResults "Cat" "Pages" 899999
    (setCachedResults "cat" "Pages" [] 0 JsMap.empty)
  = (Some [], setCachedResults "cat" "Pages" [] 0 JsMap.empty)
  /\ getCachedResults "Cat" "Pages" 900000
       (setCachedResults "cat" "Pages" [] 0 JsMap.empty)
     = (None, setCachedResults "cat" "Pages" [] 0 JsMap.empty).
Proof.
  destruct (ttl_lookup "cat" "Pages" [] 0 899999 JsMap.empty)
    as (Hfresh & _).
  destruct (ttl_lookup "cat" "Pages" [] 0 900000 JsMap.empty)
    as (_ & Hstale & _).
  split.
  - apply Hfresh. vm_compute. reflexivity.
  - apply Hstale. vm_compute. discriminate.
Defined.

(** C10 (cache keys).  A lookup of ("Cat", "Pages") and a lookup of
    ("cat", "Pages") give the same answer in every cache at every time; and
    for options among "Pages", "Collection" and "Both", two searches have
    the same cache key exactly when their lower-cased queries are equal and
    their options are equal. *)
Theorem cache_key_identifies_searches :
  (forall (now : Z) (c : Cache),
      getCachedResults "Cat" "Pages" now c
      = getCachedResults "cat" "Pages" now c)
  /\ (forall q1 q2 o1 o2 : string,
         In o1 filterOptions -> In o2 filterOptions ->
         (cacheKey q1 o1 = cacheKey q2 o2
          <-> toLowerCase q1 = toLowerCase q2 /\ o1 = o2)).
Proof.
  split.
  - intros now c. reflexivity.
  - intros q1 q2 o1 o2 H1 H2. split.
    + unfold cacheKey. simpl. intros E.
      apply key_split in E; auto using filterOptions_no_underscore.
    + intros [Hq ->]. unfold cacheKey. now rewrite Hq.
Qed.

Lemma cache_key_identifies_searches_witness :
  (cacheKey "a_Both" "Pages" = cacheKey "A_BOTH" "Pages")
  /\ (cacheKey "a" "Both" = cacheKey "a_Both" "Pages" -> False).
Proof.
  destruct cache_key_identifies_searches as [_ H].
  split.
  - apply (H "a_Both" "A_BOTH" "Pages" "Pages").
    + vm_compute. tauto.
    + vm_compute. tauto.
    + split; reflexivity.
  - intros E.
    apply (H "a" "a_Both" "Both" "Pages") in E.
    + destruct E as [_ E]. discriminate E.
    + vm_compute. tauto.
    + vm_compute. tauto.
Defined.

(** ** Controllers *)

Lemma raise_flag_length (flags : list bool) (i : nat) :
  List.length (raise_flag flags i) = List.length flags.
Proof.
  revert i. induction flags as [|b flags IH]; intros [|i]; simpl;
    try reflexivity.
  now rewrite IH.
Qed.

Lemma raise_flag_same (flags : list bool) (i : nat) :
  i < List.length flags -> nth i (raise_flag flags i) false = true.
Proof.
  revert i. induction flags as [|b flags IH]; intros [|i]; simpl; intros H;
    try lia; try reflexivity.
  apply IH. lia.
Qed.

Lemma raise_flag_other (flags : list bool) (i j : nat) :
  j <> i -> nth j (raise_flag flags i) false = nth j flags false.
Proof.
  revert i j. induction flags as [|b flags IH]; intros [|i] [|j] H; simpl;
    try reflexivity; try congruence.
  apply IH. congruence.
Qed.

Lemma fresh_flag (flags : list bool) :
  nth (List.length flags) (flags ++ [false]) false = false.
Proof. rewrite app_nth2 by lia. now rewrite Nat.sub_diag. Qed.

Lemma keeps_refl c0 w : keeps c0 w w.
Proof. unfold keeps. repeat split; auto. Qed.

Lemma keeps_trans c0 w1 w2 w3 :
  keeps c0 w1 w2 -> keeps c0 w2 w3 -> keeps c0 w1 w3.
Proof.
  intros (L1 & A1 & C1 & K1 & T1) (L2 & A2 & C2 & K2 & T2).
  unfold keeps. repeat split; try congruence; try lia.
  intros c Hc Hne. rewrite A2 by (assumption || lia). now apply A1.
Qed.

Lemma keeps_emit c0 w e : keeps c0 w (snd (emit e w)).
Proof. unfold keeps. simpl. repeat split; auto. Qed.

Lemma fresh_in_keeps c0 w w' p :
  fresh_in w p -> keeps c0 w w' -> p_controller p <> c0 -> fresh_in w' p.
Proof.
  intros (Hs & Hlt & Ha) (L & A & _) Hne.
  unfold fresh_in. repeat split; [assumption | lia |].
  now rewrite A.
Qed.

(** ** [optimizedFetch] *)

(** Whatever signal [options] carries, [fetch] is given the signal of the
    controller that [optimizedFetch] created. *)
Lemma signal_of_fetch_init (options : FetchInit) (controller : nat) :
  signal_of (fetch_init options controller) = Some controller.
Proof.
  unfold signal_of, fetch_init.
  rewrite !get_set_other by discriminate.
  now rewrite get_set_same.
Qed.

Lemma optimizedFetch_issue_eq url options w :
  optimizedFetch_issue url options w
  = (Returns (mkPending url options (List.length (controllers w))
                (fetch_init options (List.length (controllers w)))),
     mkWorld (controllers w ++ [false]) (currentSearchController w)
       (searchCache w) (clock w)
       ((log w ++ [EvSetTimeout 10000])
          ++ [EvFetch url
                (fetch_init options (List.length (controllers w)))])).
Proof. reflexivity. Qed.

Lemma optimizedFetch_issue_fresh url options w p w' :
  optimizedFetch_issue url options w = (Returns p, w') ->
  fresh_in w' p
  /\ p_url p = url
  /\ p_controller p = List.length (controllers w)
  /\ controllers w' = controllers w ++ [false]
  /\ searchCache w' = searchCache w
  /\ currentSearchController w' = currentSearchController w
  /\ clock w' = clock w.
Proof.
  rewrite optimizedFetch_issue_eq. intros [= <- <-]. simpl.
  split; [|repeat split; reflexivity].
  unfold fresh_in. simpl. split; [|split].
  - apply signal_of_fetch_init.
  - rewrite length_app. simpl. lia.
  - unfold aborted. simpl. apply fresh_flag.
Qed.

Lemma await_fetch_eq net attempt p w :
  fresh_in w p ->
  await_fetch net attempt p w
  = match reply net (p_url p) attempt with
    | Replies r => (Returns r, w)
    | NetFails e => (Throws e, w)
    | NoReply => (Throws AbortError, snd (abort (p_controller p) w))
    end.
Proof.
  intros (Hs & Hlt & Ha). unfold await_fetch, signal_aborted.
  rewrite Hs, Ha.
  destruct (reply net (p_url p) attempt) as [r|e|]; try reflexivity.
  assert (aborted (snd (abort (p_controller p) w)) (p_controller p) = true)
    as -> by (unfold aborted; simpl; now apply raise_flag_same).
  reflexivity.
Qed.

Lemma keeps_abort c w : keeps c w (snd (abort c w)).
Proof.
  unfold keeps. simpl. split; [|split; [|auto]].
  - now rewrite raise_flag_length.
  - intros c' Hc Hne. unfold aborted. simpl. now apply raise_flag_other.
Qed.

Lemma abort_log c w : log (snd (abort c w)) = log w.
Proof. reflexivity. Qed.

Lemma abort_length c w :
  List.length (controllers (snd (abort c w))) = List.length (controllers w).
Proof. simpl. apply raise_flag_length. Qed.

(** The last attempt: no retry is left. *)
Lemma optimizedFetch_settle_last net attempt p w :
  fresh_in w p ->
  fst (optimizedFetch_settle net 0 attempt p w)
  = attempt_outcome (reply net (p_url p) attempt)
  /\ keeps (p_controller p) w (snd (optimizedFetch_settle net 0 attempt p w))
  /\ log (snd (optimizedFetch_settle net 0 attempt p w))
     = log w ++ [EvClearTimeout].
Proof.
  intros Hfresh. simpl. unfold try_catch, bind.
  rewrite (await_fetch_eq net attempt p w Hfresh).
  destruct (reply net (p_url p) attempt) as [r|e|];
    (split; [reflexivity | split; [| reflexivity]]).
  - apply keeps_emit.
  - apply keeps_emit.
  - eapply keeps_trans; [apply keeps_abort | apply keeps_emit].
Qed.

Lemma is_abort_AbortError : is_abort AbortError = true.
Proof. reflexivity. Qed.

Lemma optimizedFetch_settle_unfold net p :
  optimizedFetch_settle net 1 0 p
  = try_catch
      (response <- await_fetch net 0 p ;;
       emit EvClearTimeout ;;
       ret response)
      (fun error =>
         emit EvClearTimeout ;;
         if negb (is_abort error) then
           emit (EvWait 300) ;;
           p' <- optimizedFetch_issue (p_url p) (p_options p) ;;
           optimizedFetch_settle net 0 1 p'
         else throw error).
Proof. reflexivity. Qed.

(** [optimizedFetch] with its default of one retry, from the first
    [await] on. *)
Lemma optimizedFetch_settle_once net p w :
  fresh_in w p ->
  fst (optimizedFetch_settle net 1 0 p w) = fetch_outcome net (p_url p)
  /\ keeps (p_controller p) w (snd (optimizedFetch_settle net 1 0 p w))
  /\ log (snd (optimizedFetch_settle net 1 0 p w))
     = log w ++ EvClearTimeout ::
         (if retried net (p_url p)
          then EvWait 300 ::
               attempt_events (p_url p) (p_options p)
                              (List.length (controllers w))
          else []).
Proof.
  intros Hfresh.
  rewrite optimizedFetch_settle_unfold.
  unfold fetch_outcome, retried.
  remember (optimizedFetch_settle net 0 1) as last eqn:Hlast.
  unfold try_catch, bind.
  rewrite (await_fetch_eq net 0 p w Hfresh).
  destruct (reply net (p_url p) 0) as [r|e|]; simpl attempt_outcome;
    cbv iota beta.
  - split; [reflexivity | split; [| reflexivity]]. apply keeps_emit.
  - destruct (is_abort e) eqn:Eab; simpl.
    + split; [reflexivity | split; [| reflexivity]].
      unfold keeps. simpl. repeat split; auto.
    + match goal with
      | |- context [last ?p' ?w3] =>
          assert (fresh_in w3 p') as Hf'
            by (unfold fresh_in; simpl; split; [|split];
                [ apply signal_of_fetch_init
                | rewrite length_app; simpl; lia
                | unfold aborted; simpl; apply fresh_flag ]);
          pose proof (optimizedFetch_settle_last net 1 p' w3 Hf')
            as (Ho2 & Hk2 & Hl2)
      end.
      rewrite <- Hlast in Ho2, Hk2, Hl2.
      split; [exact Ho2 | split].
      * destruct Hk2 as (L2 & A2 & C2 & K2 & T2).
        simpl in L2, A2, C2, K2, T2.
        unfold keeps. rewrite C2, K2, T2.
        rewrite length_app in L2. simpl in L2.
        split; [lia | split; [| auto]].
        intros c Hc Hne. rewrite A2.
        -- unfold aborted. simpl. now rewrite app_nth1 by lia.
        -- rewrite length_app. simpl. lia.
        -- lia.
      * rewrite Hl2. simpl. unfold attempt_events.
        rewrite <- !app_assoc. reflexivity.
  - rewrite is_abort_AbortError. simpl.
    split; [reflexivity | split; [| reflexivity]].
    unfold keeps. simpl. split; [|split; [|auto]].
    + now rewrite raise_flag_length.
    + intros c' Hc Hne. unfold aborted. simpl. now apply raise_flag_other.
Qed.

Lemma fetch_outcome_settles net url : fetch_outcome net url <> Hangs.
Proof.
  unfold fetch_outcome.
  destruct (reply net url 0) as [r|e|]; simpl; try discriminate.
  - destruct (is_abort e); [discriminate|].
    destruct (reply net url 1); discriminate.
Qed.

(** ** The callback of [searchPromises.map] *)

Lemma settle_search_spec net sp w :
  fresh_in w (sp_promise sp) ->
  fst (settle_search net sp w)
  = Returns (sub_result (sp_type sp)
               (fetch_outcome net (p_url (sp_promise sp))))
  /\ snd (settle_search net sp w)
     = snd (optimizedFetch_settle net 1 0 (sp_promise sp) w).
Proof.
  intros Hfresh.
  destruct (optimizedFetch_settle_once net (sp_promise sp) w Hfresh)
    as (Ho & _).
  pose proof (fetch_outcome_settles net (p_url (sp_promise sp))) as Hs.
  unfold settle_search, try_catch, bind.
  destruct (optimizedFetch_settle net 1 0 (sp_promise sp) w) as [o w1].
  simpl in Ho. rewrite <- Ho in *. clear Ho.
  destruct o as [r|e|]; [| split; reflexivity | congruence].
  unfold sub_result.
  destruct (ok r); [| split; reflexivity].
  unfold json.
  destruct (resp_json r) as [data|]; [| split; reflexivity].
  destruct data; split; reflexivity.
Qed.

(** ** [Promise.allSettled] over the sub-requests *)

Lemma allSettled_settle_search net sps : forall w,
  Forall (fun sp => fresh_in w (sp_promise sp)) sps ->
  NoDup (map controller_of sps) ->
  fst (allSettled (map (settle_search net) sps) w)
  = Returns (map (settled_as net) sps)
  /\ searchCache (snd (allSettled (map (settle_search net) sps) w))
     = searchCache w
  /\ currentSearchController
       (snd (allSettled (map (settle_search net) sps) w))
     = currentSearchController w
  /\ clock (snd (allSettled (map (settle_search net) sps) w)) = clock w.
Proof.
  induction sps as [|sp sps IH]; intros w Hfresh Hnd.
  - simpl. repeat split; reflexivity.
  - inversion Hfresh as [|? ? Hsp Hrest]; subst.
    simpl in Hnd. inversion Hnd as [|? ? Hnew Hnd']; subst.
    destruct (settle_search_spec net sp w Hsp) as (Ho & Hw).
    destruct (optimizedFetch_settle_once net (sp_promise sp) w Hsp)
      as (_ & Hk & _).
    rewrite <- Hw in Hk.
    simpl. destruct (settle_search net sp w) as [o w1].
    simpl in Ho, Hk. subst o.
    assert (Forall (fun sp' => fresh_in w1 (sp_promise sp')) sps) as Hrest'.
    { rewrite Forall_forall in *. intros sp' Hin.
      apply fresh_in_keeps with (c0 := p_controller (sp_promise sp)) (w := w).
      - now apply Hrest.
      - exact Hk.
      - intros E. apply Hnew. unfold controller_of at 1. rewrite <- E.
        exact (in_map controller_of sps sp' Hin). }
    destruct (IH w1 Hrest' Hnd') as (Ho2 & Hc2 & Hk2 & Ht2).
    unfold bind.
    destruct (allSettled (map (settle_search net) sps) w1) as [o2 w2].
    simpl in Ho2, Hc2, Hk2, Ht2. subst o2. simpl.
    destruct Hk as (_ & _ & C & K & T).
    repeat split; congruence.
Qed.

(** ** The merge *)

(** The merge reads and writes nothing of the world. *)
Lemma merge_results_pure results : forall allResults w,
  merge_results results allResults w
  = (fst (merge_results results allResults initial_world), w).
Proof.
  induction results as [|[value|reason] results IH]; intros allResults w;
    simpl.
  - reflexivity.
  - destruct (sr_success value); [|apply IH].
    unfold bind, array_map.
    destruct (sr_data value); try reflexivity.
    simpl. apply IH.
  - apply IH.
Qed.

(** ** [executeParallelSearches] *)

Ltac fresh_controller :=
  unfold fresh_in; simpl; split; [|split];
  [ apply signal_of_fetch_init
  | rewrite ?length_app; simpl; lia
  | unfold aborted; simpl;
    repeat (rewrite app_nth1 by (rewrite ?length_app; simpl; lia));
    apply fresh_flag ].

Lemma executeParallelSearches_start_spec query cfg w :
  exists sps w',
    executeParallelSearches_start query cfg w = (Returns sps, w')
    /\ (forall net, map (settled_as net) sps = expected_results net query cfg)
    /\ Forall (fun sp => fresh_in w' (sp_promise sp)) sps
    /\ NoDup (map controller_of sps)
    /\ searchCache w' = searchCache w
    /\ clock w' = clock w.
Proof.
  unfold executeParallelSearches_start, expected_results.
  unfold bind, get_currentSearchController.
  destruct (currentSearchController w) as [c|];
    destruct (wants_pages (selectedOption cfg));
    destruct (wants_collection (selectedOption cfg));
    simpl; eexists; eexists; (split; [reflexivity|]); simpl;
    (split; [intros net; reflexivity|]);
    (split; [repeat (constructor; [fresh_controller|]); constructor|]);
    (split; [|split; reflexivity]);
    unfold controller_of; simpl; repeat constructor; simpl;
    rewrite ?length_app; simpl; try tauto; try lia.
Qed.

(** The result of a search is the merge of its settled sub-requests; the
    search leaves the cache alone and takes [elapsed net] of time. *)
Lemma executeParallelSearches_spec net query cfg w :
  fst (executeParallelSearches net query cfg w)
  = fst (merge_results (expected_results net query cfg) [] initial_world)
  /\ searchCache (snd (executeParallelSearches net query cfg w))
     = searchCache w
  /\ clock (snd (executeParallelSearches net query cfg w))
     = (clock w + elapsed net)%Z.
Proof.
  destruct (executeParallelSearches_start_spec query cfg w)
    as (sps & w' & E & Hexp & Hf & Hnd & Hc & Ht).
  unfold executeParallelSearches, bind. rewrite E.
  unfold executeParallelSearches_finish, bind.
  set (wa := snd (advance (elapsed net) w')).
  change (advance (elapsed net) w') with (Returns tt, wa).
  cbv iota beta.
  destruct (allSettled_settle_search net sps wa Hf Hnd)
    as (Ho & Hc2 & _ & Ht2).
  destruct (allSettled (map (settle_search net) sps) wa) as [o w2].
  simpl in Ho, Hc2, Ht2. subst o. rewrite Hexp.
  rewrite merge_results_pure. simpl.
  split; [reflexivity|]. split; congruence.
Qed.


Lemma broken_result type rp :
  broken rp -> sr_success (sub_result type (attempt_outcome rp)) = false.
Proof.
  intros [r Hok | r Hok Hjson | e |]; simpl; try reflexivity.
  - now rewrite Hok.
  - now rewrite Hok, Hjson.
Qed.

Lemma sub_fails_result net url type :
  sub_fails net url ->
  sr_success (sub_result type (fetch_outcome net url)) = false.
Proof.
  intros [r R Hb | R | e R Hab | e R Hab Hb]; unfold fetch_outcome;
    rewrite R; simpl.
  - now apply (broken_result type (Replies r)).
  - reflexivity.
  - now rewrite Hab.
  - rewrite Hab. now apply broken_result.
Qed.


Lemma tag_type type item : JsMap.get (tag type item) "_type" = Some (JStr type).
Proof. apply get_set_same. Qed.

Lemma tag_keeps type item k :
  k <> "_type" -> JsMap.get (tag type item) k = JsMap.get (spread item) k.
Proof. intros H. now apply get_set_other. Qed.

(** ** Partial failure *)



(** ** Total failure and the shape of bodies *)

Lemma or_empty_array_is_array (v : option Json) :
  (forall x, v = Some x -> truthy x = true -> exists items, x = JArr items) ->
  exists items, or_empty_array v = JArr items.
Proof.
  intros H. destruct v as [x|]; simpl; [|now exists []].
  destruct (truthy x) eqn:T; [|now exists []].
  now apply H.
Qed.

Lemma attempt_data_is_array net url n type :
  results_are_arrays net ->
  exists items,
    sr_data (sub_result type (attempt_outcome (reply net url n)))
    = JArr items.
Proof.
  intros Hc. destruct (reply net url n) as [r|e|] eqn:R; simpl;
    try (now exists []).
  destruct (ok r); [|now exists []].
  destruct (resp_json r) as [data|] eqn:J; [|now exists []].
  destruct data; try (now exists []).
  simpl. apply or_empty_array_is_array.
  intros x Hx Tx. now apply (Hc url n r props x).
Qed.

Lemma sub_data_is_array net url type :
  results_are_arrays net ->
  exists items, sr_data (sub_result type (fetch_outcome net url)) = JArr items.
Proof.
  intros Hc. unfold fetch_outcome.
  pose proof (attempt_data_is_array net url 0 type Hc) as H0.
  pose proof (attempt_data_is_array net url 1 type Hc) as H1.
  destruct (attempt_outcome (reply net url 0)) as [r|e|]; try assumption.
  destruct (is_abort e); assumption.
Qed.

Lemma merge_arrays results : forall acc w,
  Forall (fun s => match s with
                   | fulfilled v => exists items, sr_data v = JArr items
                   | rejected _ => True
                   end) results ->
  exists items, fst (merge_results results acc w) = Returns items.
Proof.
  induction results as [|[value|reason] results IH]; intros acc w H; simpl.
  - now exists acc.
  - inversion H as [|? ? Hv Hrest]; subst. simpl in Hv.
    destruct Hv as [items Hd].
    destruct (sr_success value); [|now apply IH].
    unfold bind, array_map. rewrite Hd. simpl. now apply IH.
  - inversion H; subst. now apply IH.
Qed.

(** On the network of replies alone: bodies that keep to the upstream
    contract give a sequence of results, and sub-requests that all fail
    give the empty one. *)
Lemma executeParallelSearches_resolves :
  forall (net : Network) (query : string) (cfg : SearchConfig) (w : World),
    (results_are_arrays net ->
     exists items,
       fst (executeParallelSearches net query cfg w) = Returns items)
    /\ ((wants_pages (selectedOption cfg) = true ->
         sub_fails net (pageUrl query cfg)) ->
        (wants_collection (selectedOption cfg) = true ->
         sub_fails net (cmsUrl query cfg)) ->
        fst (executeParallelSearches net query cfg w) = Returns []).
Proof.
  intros net query cfg w.
  destruct (executeParallelSearches_spec net query cfg w) as (-> & _).
  split.
  - intros Hc. apply merge_arrays. unfold expected_results.
    apply Forall_app. split.
    + destruct (wants_pages (selectedOption cfg)); constructor;
        [now apply sub_data_is_array | constructor].
    + destruct (wants_collection (selectedOption cfg)); constructor;
        [now apply sub_data_is_array | constructor].
  - intros Hp Hc. unfold expected_results.
    destruct (wants_pages (selectedOption cfg));
      destruct (wants_collection (selectedOption cfg)); simpl;
      rewrite ?(sub_fails_result _ _ "page" (Hp eq_refl));
      rewrite ?(sub_fails_result _ _ "cms" (Hc eq_refl)); reflexivity.
Qed.

(** ** The search as the browser runs it *)

(** A well-formed query starts the same requests as its text. *)
Lemma executeParallelSearches_start_raw_wf query cfg w :
  isWellFormed query = true ->
  executeParallelSearches_start_raw query cfg w
  = executeParallelSearches_start (text_of query) cfg w.
Proof.
  intros H.
  unfold executeParallelSearches_start_raw, executeParallelSearches_start,
    encoded.
  rewrite H. reflexivity.
Qed.

(** So does any query when the option asks for no request. *)
Lemma executeParallelSearches_start_raw_idle query cfg w :
  wants_pages (selectedOption cfg) = false ->
  wants_collection (selectedOption cfg) = false ->
  executeParallelSearches_start_raw query cfg w
  = executeParallelSearches_start (text_of query) cfg w.
Proof.
  intros Hp Hc.
  unfold executeParallelSearches_start_raw, executeParallelSearches_start.
  rewrite Hp, Hc. reflexivity.
Qed.

(** A query with a lone surrogate throws as soon as a URL is built. *)
Lemma executeParallelSearches_start_raw_malformed query cfg w :
  isWellFormed query = false ->
  wants_pages (selectedOption cfg) || wants_collection (selectedOption cfg)
  = true ->
  fst (executeParallelSearches_start_raw query cfg w) = Throws URIError
  /\ searchCache (snd (executeParallelSearches_start_raw query cfg w))
     = searchCache w.
Proof.
  intros Hq Hw.
  unfold executeParallelSearches_start_raw, encoded.
  rewrite Hq.
  unfold bind, get_currentSearchController.
  destruct (currentSearchController w) as [c|];
    destruct (wants_pages (selectedOption cfg));
    destruct (wants_collection (selectedOption cfg));
    try discriminate Hw; simpl; split; reflexivity.
Qed.

Lemma executeParallelSearches_start_requests query cfg w :
  map request_of
      (match fst (executeParallelSearches_start query cfg w) with
       | Returns sps => sps
       | _ => []
       end)
  = requested query cfg.
Proof.
  unfold executeParallelSearches_start, requested.
  unfold bind, get_currentSearchController.
  destruct (currentSearchController w) as [c|];
    destruct (wants_pages (selectedOption cfg));
    destruct (wants_collection (selectedOption cfg)); reflexivity.
Qed.

(** A body that arrives is read as [json] reads it. *)
Lemma settle_search_raw_arrives wire sp :
  body_arrives wire (p_url (sp_promise sp)) = true ->
  settle_search_raw wire sp = settle_search (wire_net wire) sp.
Proof.
  intros H. unfold settle_search_raw, settle_search, json_raw.
  rewrite H. reflexivity.
Qed.

Lemma executeParallelSearches_finish_raw_arrives wire searchPromises :
  (forall url, body_arrives wire url = true) ->
  executeParallelSearches_finish_raw wire searchPromises
  = executeParallelSearches_finish (wire_net wire) searchPromises.
Proof.
  intros H.
  unfold executeParallelSearches_finish_raw, executeParallelSearches_finish.
  rewrite (map_ext (settle_search_raw wire) (settle_search (wire_net wire)));
    [reflexivity |].
  intros sp. apply settle_search_raw_arrives, H.
Qed.

Lemma executeParallelSearches_raw_unfold wire query cfg w :
  executeParallelSearches_raw wire query cfg w
  = match executeParallelSearches_start_raw query cfg w with
    | (Returns sps, w') => executeParallelSearches_finish_raw wire sps w'
    | (Throws e, w') => (Throws e, w')
    | (Hangs, w') => (Hangs, w')
    end.
Proof. reflexivity. Qed.

Lemma executeParallelSearches_unfold net query cfg w :
  executeParallelSearches net query cfg w
  = match executeParallelSearches_start query cfg w with
    | (Returns sps, w') => executeParallelSearches_finish net sps w'
    | (Throws e, w') => (Throws e, w')
    | (Hangs, w') => (Hangs, w')
    end.
Proof. reflexivity. Qed.

(** For a well-formed query and bodies that arrive, the search is the one
    on the network of replies, for the text of the query. *)
Lemma executeParallelSearches_raw_sound wire query cfg w :
  isWellFormed query = true ->
  (forall url, body_arrives wire url = true) ->
  executeParallelSearches_raw wire query cfg w
  = executeParallelSearches (wire_net wire) (text_of query) cfg w.
Proof.
  intros Hq Hb.
  rewrite executeParallelSearches_raw_unfold, executeParallelSearches_unfold.
  rewrite (executeParallelSearches_start_raw_wf query cfg w Hq).
  destruct (executeParallelSearches_start (text_of query) cfg w)
    as [[sps|e|] w']; [| reflexivity | reflexivity].
  now rewrite (executeParallelSearches_finish_raw_arrives wire sps Hb).
Qed.

(** The callback, with bodies that may not arrive. *)
Lemma settle_search_raw_spec wire sp w :
  fresh_in w (sp_promise sp) ->
  fst (settle_search_raw wire sp w)
  = (if stalls wire (p_url (sp_promise sp)) then Hangs
     else Returns (sub_result (sp_type sp)
                     (fetch_outcome (wire_net wire) (p_url (sp_promise sp)))))
  /\ snd (settle_search_raw wire sp w)
     = snd (optimizedFetch_settle (wire_net wire) 1 0 (sp_promise sp) w).
Proof.
  intros Hfresh.
  destruct (optimizedFetch_settle_once (wire_net wire) (sp_promise sp) w
              Hfresh) as (Ho & _).
  pose proof (fetch_outcome_settles (wire_net wire) (p_url (sp_promise sp)))
    as Hs.
  unfold settle_search_raw, try_catch, bind, stalls.
  destruct (optimizedFetch_settle (wire_net wire) 1 0 (sp_promise sp) w)
    as [o w1].
  simpl in Ho. rewrite <- Ho in *. clear Ho.
  destruct o as [r|e|]; [| split; reflexivity | congruence].
  unfold sub_result.
  destruct (ok r); [| split; reflexivity].
  unfold json_raw.
  destruct (body_arrives wire (p_url (sp_promise sp)));
    [| split; reflexivity].
  unfold json. simpl.
  destruct (resp_json r) as [data|]; [| split; reflexivity].
  destruct data; split; reflexivity.
Qed.

Lemma allSettled_settle_search_raw wire sps : forall w,
  Forall (fun sp => fresh_in w (sp_promise sp)) sps ->
  NoDup (map controller_of sps) ->
  fst (allSettled (map (settle_search_raw wire) sps) w)
  = settled_raw wire (map request_of sps)
  /\ searchCache (snd (allSettled (map (settle_search_raw wire) sps) w))
     = searchCache w
  /\ clock (snd (allSettled (map (settle_search_raw wire) sps) w)) = clock w.
Proof.
  induction sps as [|sp sps IH]; intros w Hfresh Hnd.
  - simpl. repeat split; reflexivity.
  - inversion Hfresh as [|? ? Hsp Hrest]; subst.
    simpl in Hnd. inversion Hnd as [|? ? Hnew Hnd']; subst.
    destruct (settle_search_raw_spec wire sp w Hsp) as (Ho & Hw).
    destruct (optimizedFetch_settle_once (wire_net wire) (sp_promise sp) w
                Hsp) as (_ & Hk & _).
    rewrite <- Hw in Hk.
    simpl. destruct (settle_search_raw wire sp w) as [o w1].
    simpl in Ho, Hk. subst o.
    assert (Forall (fun sp' => fresh_in w1 (sp_promise sp')) sps) as Hrest'.
    { rewrite Forall_forall in *. intros sp' Hin.
      apply fresh_in_keeps with (c0 := p_controller (sp_promise sp)) (w := w).
      - now apply Hrest.
      - exact Hk.
      - intros E. apply Hnew. unfold controller_of at 1. rewrite <- E.
        exact (in_map controller_of sps sp' Hin). }
    destruct Hk as (_ & _ & C & _ & T).
    destruct (stalls wire (p_url (sp_promise sp))).
    + simpl. repeat split; assumption.
    + destruct (IH w1 Hrest' Hnd') as (Ho2 & Hc2 & Ht2).
      unfold bind.
      destruct (allSettled (map (settle_search_raw wire) sps) w1)
        as [o2 w2].
      simpl in Ho2, Hc2, Ht2. rewrite <- Ho2.
      destruct o2; simpl; repeat split; congruence.
Qed.

(** How the search as the browser runs it ends, from any world; it leaves
    the cache alone and, unless the query stops it, takes
    [elapsed (wire_net wire)] of time. *)
Lemma executeParallelSearches_raw_spec wire query cfg w :
  fst (executeParallelSearches_raw wire query cfg w)
  = expected_raw wire query cfg
  /\ searchCache (snd (executeParallelSearches_raw wire query cfg w))
     = searchCache w
  /\ (isWellFormed query = true ->
      clock (snd (executeParallelSearches_raw wire query cfg w))
      = (clock w + elapsed (wire_net wire))%Z).
Proof.
  assert (executeParallelSearches_start_raw query cfg w
          = executeParallelSearches_start (text_of query) cfg w
          -> fst (executeParallelSearches_raw wire query cfg w)
             = match settled_raw wire (requested (text_of query) cfg) with
               | Returns results =>
                   fst (merge_results results [] initial_world)
               | Throws e => Throws e
               | Hangs => Hangs
               end
             /\ searchCache (snd (executeParallelSearches_raw wire query cfg w))
                = searchCache w
             /\ clock (snd (executeParallelSearches_raw wire query cfg w))
                = (clock w + elapsed (wire_net wire))%Z) as Hrun.
  { intros E.
    rewrite executeParallelSearches_raw_unfold, E.
    pose proof (executeParallelSearches_start_requests (text_of query) cfg w)
      as Hreq.
    destruct (executeParallelSearches_start_spec (text_of query) cfg w)
      as (sps & w' & E' & _ & Hf & Hnd & Hc & Ht).
    rewrite E' in Hreq |- *. simpl in Hreq.
    unfold executeParallelSearches_finish_raw, bind.
    set (wa := snd (advance (elapsed (wire_net wire)) w')).
    change (advance (elapsed (wire_net wire)) w') with (Returns tt, wa).
    cbv iota beta.
    destruct (allSettled_settle_search_raw wire sps wa Hf Hnd)
      as (Ho & Hc2 & Ht2).
    destruct (allSettled (map (settle_search_raw wire) sps) wa) as [o w2].
    simpl in Ho, Hc2, Ht2. rewrite <- Hreq, <- Ho.
    destruct o as [results|e|]; simpl.
    - rewrite merge_results_pure. simpl.
      split; [reflexivity|]. split; congruence.
    - split; [reflexivity|]. split; congruence.
    - split; [reflexivity|]. split; congruence. }
  unfold expected_raw.
  destruct (isWellFormed query) eqn:Hq.
  - destruct (Hrun (executeParallelSearches_start_raw_wf query cfg w Hq))
      as (H1 & H2 & H3).
    simpl. split; [exact H1|]. split; [exact H2|]. intros _. exact H3.
  - destruct (wants_pages (selectedOption cfg)
              || wants_collection (selectedOption cfg)) eqn:Hw.
    + destruct (executeParallelSearches_start_raw_malformed query cfg w Hq Hw)
        as (H1 & H2).
      rewrite executeParallelSearches_raw_unfold.
      destruct (executeParallelSearches_start_raw query cfg w) as [o w'].
      simpl in H1, H2. subst o. simpl.
      split; [reflexivity|]. split; [exact H2|]. discriminate.
    + apply orb_false_elim in Hw. destruct Hw as (Hp & Hc).
      destruct (Hrun (executeParallelSearches_start_raw_idle query cfg w
                        Hp Hc)) as (H1 & H2 & H3).
      simpl. split; [exact H1|]. split; [exact H2|]. discriminate.
Qed.

(** C9, as stated, fails, in three ways.  A 200 response whose body has a
    string where the array of results should be makes the search throw a
    [TypeError]; a query with a lone surrogate makes it throw a [URIError]
    before any request is sent; and a 200 response whose body never
    arrives leaves it pending for ever. *)
Lemma search_fails_outside_contract :
  fst (executeParallelSearches_raw (wire_of net_results_string) query_shoes
         cfg_pages initial_world)
  = Throws (mkError "TypeError" "result.value.data.map is not a function")
  /\ fst (executeParallelSearches_raw (wire_of net_pages_only)
            query_cut_emoji cfg_pages initial_world)
     = Throws (mkError "URIError" "URI malformed")
  /\ fst (executeParallelSearches_raw wire_stalled query_shoes cfg_pages
            initial_world)
     = Hangs.
Proof. repeat split; vm_compute; reflexivity. Qed.

(** C9, amended.  Take a query in which no surrogate stands alone, so that
    [encodeURIComponent] gives its text, and a network on which the body
    of every response arrives.  When every response body keeps to the
    upstream contract (its [results] member is missing, falsy or an array)
    the search resolves to a sequence of results, for every option and
    world: it neither throws nor stays pending.  And when every
    sub-request that the option asks for fails (bad status, unparsable
    body, network error, timeout) it resolves to the empty sequence. *)
Theorem search_resolves_under_contract :
  forall (wire : Wire) (query : JsString) (cfg : SearchConfig) (w : World),
    isWellFormed query = true ->
    (forall url, body_arrives wire url = true) ->
    (results_are_arrays (wire_net wire) ->
     exists items,
       fst (executeParallelSearches_raw wire query cfg w) = Returns items)
    /\ ((wants_pages (selectedOption cfg) = true ->
         sub_fails (wire_net wire) (pageUrl (text_of query) cfg)) ->
        (wants_collection (selectedOption cfg) = true ->
         sub_fails (wire_net wire) (cmsUrl (text_of query) cfg)) ->
        fst (executeParallelSearches_raw wire query cfg w) = Returns []).
Proof.
  intros wire query cfg w Hq Hb.
  rewrite (executeParallelSearches_raw_sound wire query cfg w Hq Hb).
  apply executeParallelSearches_resolves.
Qed.

Lemma search_resolves_under_contract_witness :
  fst (executeParallelSearches_raw (wire_of net_unavailable) query_shoes
         cfg_both initial_world)
  = Returns [].
Proof.
  refine (proj2 (search_resolves_under_contract (wire_of net_unavailable)
                   query_shoes cfg_both initial_world
                   eq_refl (fun _ => eq_refl)) _ _).
  - intros _.
    apply fails_response
      with (r := mkResponse 503 "Service Unavailable" None);
      [reflexivity | apply broken_status; reflexivity].
  - intros _.
    apply fails_response
      with (r := mkResponse 503 "Service Unavailable" None);
      [reflexivity | apply broken_status; reflexivity].
Defined.

(** ** Retries *)

(** [optimizedFetch], run without interruption from any world. *)
Lemma optimizedFetch_spec net url options w :
  fst (optimizedFetch net url options 1 w) = fetch_outcome net url
  /\ log (snd (optimizedFetch net url options 1 w))
     = log w
       ++ attempt_events url options (List.length (controllers w))
       ++ (if retried net url
           then EvWait 300 ::
                attempt_events url options (S (List.length (controllers w)))
           else []).
Proof.
  unfold optimizedFetch, bind. rewrite optimizedFetch_issue_eq.
  match goal with
  | |- context [optimizedFetch_settle net 1 0 ?p ?w1] =>
      assert (fresh_in w1 p) as Hf by fresh_controller;
      destruct (optimizedFetch_settle_once net p w1 Hf) as (Ho & _ & Hl)
  end.
  split; [exact Ho|].
  rewrite Hl. simpl. rewrite length_app. simpl.
  rewrite Nat.add_1_r. unfold attempt_events.
  rewrite <- !app_assoc. reflexivity.
Qed.

(** C2, as stated, fails: a 503 response is not retried.  The fetch is
    attempted once, its response is returned, and the sub-request is counted
    as failed at once. *)
Lemma unavailable_is_not_retried :
  fst (optimizedFetch net_unavailable (SearchIndex "shoes" "site") [] 1
         initial_world)
  = Returns (mkResponse 503 "Service Unavailable" None)
  /\ fetch_count
       (log (snd (optimizedFetch net_unavailable (SearchIndex "shoes" "site")
                    [] 1 initial_world))) = 1
  /\ fst (executeParallelSearches net_unavailable "shoes" cfg_pages
            initial_world) = Returns []
  /\ fetch_count
       (log (snd (executeParallelSearches net_unavailable "shoes" cfg_pages
                    initial_world))) = 1.
Proof. vm_compute. repeat split; reflexivity. Qed.

(** C2, amended.  [optimizedFetch], called with its default of one retry:
    - when the first attempt is rejected with an error that is not an
      [AbortError], there is a wait of 300 ms and exactly one more attempt,
      whose end is the end of the call;
    - when the first attempt is answered, with whatever status, the response
      is returned and there is no other attempt;
    - when the first attempt is rejected with an [AbortError], the error is
      thrown and there is no other attempt. *)
Theorem retry_policy :
  forall (net : Network) (url : Url) (options : FetchInit) (w : World),
    (forall e,
        reply net url 0 = NetFails e -> err_name e <> "AbortError" ->
        fst (optimizedFetch net url options 1 w)
        = attempt_outcome (reply net url 1)
        /\ log (snd (optimizedFetch net url options 1 w))
           = log w
             ++ [EvSetTimeout 10000;
                 EvFetch url
                   (fetch_init options (List.length (controllers w)));
                 EvClearTimeout;
                 EvWait 300;
                 EvSetTimeout 10000;
                 EvFetch url
                   (fetch_init options (S (List.length (controllers w))));
                 EvClearTimeout])
    /\ (forall r,
           reply net url 0 = Replies r ->
           fst (optimizedFetch net url options 1 w) = Returns r
           /\ log (snd (optimizedFetch net url options 1 w))
              = log w
                ++ [EvSetTimeout 10000;
                    EvFetch url
                      (fetch_init options (List.length (controllers w)));
                    EvClearTimeout])
    /\ (forall e,
           reply net url 0 = NetFails e -> err_name e = "AbortError" ->
           fst (optimizedFetch net url options 1 w) = Throws e
           /\ log (snd (optimizedFetch net url options 1 w))
              = log w
                ++ [EvSetTimeout 10000;
                    EvFetch url
                      (fetch_init options (List.length (controllers w)));
                    EvClearTimeout]).
Proof.
  intros net url options w.
  destruct (optimizedFetch_spec net url options w) as (Ho & Hl).
  rewrite Ho, Hl. unfold fetch_outcome, retried, attempt_events.
  split; [|split].
  - intros e R Hname.
    assert (is_abort e = false) as Hab
      by (unfold is_abort; now apply String.eqb_neq).
    rewrite R. simpl. rewrite Hab. simpl. split; reflexivity.
  - intros r R. rewrite R. simpl. split; reflexivity.
  - intros e R Hname.
    assert (is_abort e = true) as Hab
      by (unfold is_abort; now apply String.eqb_eq).
    rewrite R. simpl. rewrite Hab. simpl. split; reflexivity.
Qed.

Lemma retry_policy_witness :
  fst (optimizedFetch net_flaky (SearchIndex "shoes" "site") [] 1
         initial_world)
  = Returns (mkResponse 200 "OK" (Some (JObj [("results", JArr [item_a])])))
  /\ fetch_count
       (log (snd (optimizedFetch net_flaky (SearchIndex "shoes" "site") [] 1
                    initial_world))) = 2.
Proof.
  destruct (retry_policy net_flaky (SearchIndex "shoes" "site") []
              initial_world) as (Hretry & _).
  destruct (Hretry (mkError "TypeError" "Failed to fetch")) as (Ho & Hl).
  - reflexivity.
  - discriminate.
  - split.
    + exact Ho.
    + rewrite Hl. reflexivity.
Defined.

(** ** Supersession *)

(** C1, on the code: the second preload aborts the controller that the
    first search shares among its sub-requests (controller 0), but the fetch
    of the first search listens to the controller that [optimizedFetch]
    made for it (controller 1), as every fetch does whatever [options]
    carries.  So the answer to the first search is merged, and the first
    preload writes it to the cache under its key. *)
Theorem superseded_search_reaches_cache :
  (forall options controller,
      signal_of (fetch_init options controller) = Some controller)
  /\ fst (superseded_preload initial_world) = Returns tt
  /\ aborted (snd (superseded_preload initial_world)) 0 = true
  /\ aborted (snd (superseded_preload initial_world)) 1 = false
  /\ JsMap.get (searchCache (snd (superseded_preload initial_world)))
               (cacheKey "ab" "Pages")
     = Some (mkEntry [[("name", JStr "a"); ("_type", JStr "page")];
                      [("name", JStr "b"); ("_type", JStr "page")]] 120).
Proof.
  split; [apply signal_of_fetch_init|].
  vm_compute. repeat split; reflexivity.
Qed.

(** Cutting [preloadSearchData] at its [await] changes nothing when no
    other call comes in between. *)
Lemma preloadSearchData_split net query cfg w :
  preloadSearchData net query cfg w
  = (searchPromises <- preloadSearchData_begin query cfg ;;
     preloadSearchData_resume net query cfg searchPromises) w.
Proof.
  unfold preloadSearchData, preloadSearchData_begin, preloadSearchData_resume,
    executeParallelSearches, try_catch, bind.
  set (w1 := snd (emit (EvIndicator true) w)).
  change (emit (EvIndicator true) w) with (Returns tt, w1). cbv iota beta.
  destruct (executeParallelSearches_start_spec query cfg w1)
    as (sps & w' & E & _).
  rewrite E. reflexivity.
Qed.

(** ** Which results are cached *)

(** [preloadSearchData] stores whatever the search resolves to. *)
Lemma preloadSearchData_stores net query cfg w items :
  fst (executeParallelSearches net query cfg
         (snd (emit (EvIndicator true) w))) = Returns items ->
  JsMap.get (searchCache (snd (preloadSearchData net query cfg w)))
            (cacheKey query (selectedOption cfg))
  = Some (mkEntry items (clock w + elapsed net)).
Proof.
  intros Hres.
  unfold preloadSearchData, try_catch, bind.
  set (w1 := snd (emit (EvIndicator true) w)) in *.
  change (emit (EvIndicator true) w) with (Returns tt, w1). cbv iota beta.
  destruct (executeParallelSearches_spec net query cfg w1) as (_ & _ & Ht).
  destruct (executeParallelSearches net query cfg w1) as [o w2].
  simpl in Hres, Ht. subst o. simpl.
  unfold setCachedResults. rewrite get_set_same. now rewrite Ht.
Qed.

(** [performSearchFast] stores nothing when the search resolves to the
    empty sequence. *)
Lemma performSearchFast_skips_empty net query cfg w :
  query <> "" ->
  fst (getCachedResults query (selectedOption cfg) (clock w) (searchCache w))
  = None ->
  fst (merge_results (expected_results net query cfg) [] initial_world)
  = Returns [] ->
  searchCache (snd (performSearchFast net query cfg w)) = searchCache w.
Proof.
  intros Hq Hmiss Hres.
  unfold performSearchFast.
  apply String.eqb_neq in Hq. rewrite Hq.
  unfold bind at 1. unfold lookup_cache.
  pose proof (getCachedResults_same_cache query (selectedOption cfg)
                (clock w) (searchCache w)) as Hsame.
  destruct (getCachedResults query (selectedOption cfg) (clock w)
              (searchCache w)) as [r c].
  simpl in Hmiss, Hsame. subst r c.
  unfold bind, try_catch, emit. cbv iota beta.
  match goal with
  | |- context [executeParallelSearches net query cfg ?w2] =>
      destruct (executeParallelSearches_spec net query cfg w2)
        as (Ho & Hc & _);
      destruct (executeParallelSearches net query cfg w2) as [o w3]
  end.
  simpl in Ho, Hc. rewrite Hres in Ho. subst o. simpl. exact Hc.
Qed.

(** C3, on the code: when the page index answers 200 with no results,
    the search resolves to the empty sequence; [performSearchFast] shows
    the no-results message and leaves the cache empty, whereas
    [preloadSearchData] on the same input stores the empty sequence. *)
Theorem performSearchFast_drops_empty_result :
  fst (executeParallelSearches net_no_matches "zzz" cfg_pages initial_world)
  = Returns []
  /\ fst (performSearchFast net_no_matches "zzz" cfg_pages initial_world)
     = Returns tt
  /\ searchCache
       (snd (performSearchFast net_no_matches "zzz" cfg_pages initial_world))
     = JsMap.empty
  /\ In EvRenderNoResults
        (log (snd (performSearchFast net_no_matches "zzz" cfg_pages
                     initial_world)))
  /\ searchCache
       (snd (preloadSearchData net_no_matches "zzz" cfg_pages initial_world))
     = [(cacheKey "zzz" "Pages", mkEntry [] 120)].
Proof.
  vm_compute. repeat split; try reflexivity. tauto.
Qed.

(** ** Pages of results *)

Lemma ceil_div_bounds (a b : Z) :
  (0 < b)%Z ->
  ((ceil_div a b - 1) * b < a /\ a <= ceil_div a b * b)%Z.
Proof.
  intros Hb. unfold ceil_div.
  pose proof (Z.mul_div_le (- a) b Hb).
  pose proof (Z.mul_succ_div_gt (- a) b Hb).
  nia.
Qed.

Lemma clampPage_range (len maxItems currentPage : Z) :
  (1 <= totalPages len maxItems)%Z ->
  (1 <= clampPage len maxItems currentPage <= totalPages len maxItems)%Z.
Proof. unfold clampPage. lia. Qed.

Lemma totalPages_pos (len maxItems : Z) :
  (0 < len)%Z -> (0 < maxItems)%Z -> (1 <= totalPages len maxItems)%Z.
Proof.
  intros Hl Hm. unfold totalPages.
  assert ((maxItems =? 0)%Z = false) as -> by (apply Z.eqb_neq; lia).
  pose proof (ceil_div_bounds len maxItems Hm). nia.
Qed.

(** A page that starts inside the list is the chunk of [maxItems] items
    from its start. *)
Lemma slice_chunk {A : Type} (l : list A) (start m : Z) :
  (0 <= start)%Z -> (start <= Z.of_nat (List.length l))%Z -> (0 < m)%Z ->
  slice l start (start + m)
  = firstn (Z.to_nat m) (skipn (Z.to_nat start) l).
Proof.
  intros H0 Hs Hm. unfold slice, slice_index.
  assert ((start <? 0)%Z = false) as -> by (apply Z.ltb_ge; lia).
  assert ((start + m <? 0)%Z = false) as -> by (apply Z.ltb_ge; lia).
  rewrite (Z.min_l start) by lia.
  destruct (Z.le_gt_cases (start + m) (Z.of_nat (List.length l))) as [Hin|Hout].
  - rewrite Z.min_l by lia. f_equal. lia.
  - rewrite Z.min_r by lia.
    rewrite !firstn_all2; [reflexivity | |]; rewrite length_skipn; lia.
Qed.

Lemma pagedResults_chunk {A : Type} (results : list A) (m : Z) (i : nat) :
  (0 < m)%Z ->
  (Z.of_nat i * m < Z.of_nat (List.length results))%Z ->
  pagedResults results m (1 + Z.of_nat i)
  = firstn (Z.to_nat m) (skipn (i * Z.to_nat m) results).
Proof.
  intros Hm Hi.
  assert (0 < Z.of_nat (List.length results))%Z as Hlen by lia.
  unfold pagedResults.
  destruct results as [|x results]; [simpl in Hlen; lia|].
  set (l := x :: results) in *. set (len := Z.of_nat (List.length l)) in *.
  pose proof (totalPages_pos len m Hlen Hm) as HT.
  assert (clampPage len m (1 + Z.of_nat i) = 1 + Z.of_nat i)%Z as Hc.
  { unfold clampPage, totalPages in *.
    assert ((m =? 0)%Z = false) as E by (apply Z.eqb_neq; lia).
    rewrite E in *. pose proof (ceil_div_bounds len m Hm). nia. }
  unfold endIndex, startIndex. rewrite Hc.
  assert ((m =? 0)%Z = false) as -> by (apply Z.eqb_neq; lia).
  replace ((1 + Z.of_nat i - 1) * m)%Z with (Z.of_nat i * m)%Z by lia.
  rewrite slice_chunk by (fold len; lia).
  f_equal. f_equal. lia.
Qed.

Lemma chunks_concat {A : Type} (M : nat) : forall (k : nat) (l : list A),
  List.length l <= k * M ->
  List.concat (map (fun i => firstn M (skipn (i * M) l)) (seq 0 k)) = l.
Proof.
  induction k as [|k IH]; intros l Hl.
  - simpl in Hl. destruct l; [reflexivity | simpl in Hl; lia].
  - simpl seq. rewrite <- seq_shift, map_cons, map_map. simpl List.concat.
    transitivity (firstn M l ++ skipn M l); [|apply firstn_skipn].
    f_equal.
    etransitivity; [|apply (IH (skipn M l))].
    + f_equal. apply map_ext. intros i.
      rewrite skipn_skipn. f_equal. f_equal. lia.
    + rewrite length_skipn. simpl in Hl. lia.
Qed.

(** X1.  Whatever page is asked for -- 0, a negative one, one past the end --
    the renderer draws a page that is not empty and holds at most
    [maxItems] results. *)
Theorem page_is_never_empty :
  forall (A : Type) (results : list A) (maxItems currentPage : Z),
    results <> [] -> (0 < maxItems)%Z ->
    pagedResults results maxItems currentPage <> []
    /\ (Z.of_nat (List.length (pagedResults results maxItems currentPage))
        <= maxItems)%Z.
Proof.
  intros A results m c Hne Hm.
  assert (0 < Z.of_nat (List.length results))%Z as Hlen
    by (destruct results; [congruence | simpl; lia]).
  set (len := Z.of_nat (List.length results)) in *.
  pose proof (totalPages_pos len m Hlen Hm) as HT.
  pose proof (clampPage_range len m c HT) as Hc.
  assert (exists i : nat,
             clampPage len m c = (1 + Z.of_nat i)%Z
             /\ (Z.of_nat i * m < len)%Z) as (i & Hi & Hlt).
  { exists (Z.to_nat (clampPage len m c - 1)). split; [lia|].
    unfold totalPages in *.
    assert ((m =? 0)%Z = false) as E by (apply Z.eqb_neq; lia).
    rewrite E in *. pose proof (ceil_div_bounds len m Hm). nia. }
  assert (pagedResults results m c
          = pagedResults results m (1 + Z.of_nat i)) as ->.
  { unfold pagedResults, endIndex, startIndex. fold len.
    rewrite <- Hi.
    assert (clampPage len m (clampPage len m c) = clampPage len m c) as ->
      by (unfold clampPage in *; lia).
    reflexivity. }
  rewrite pagedResults_chunk by (fold len; assumption).
  split.
  - intros E. apply (f_equal (@List.length A)) in E.
    rewrite length_firstn, length_skipn in E. simpl in E. nia.
  - rewrite length_firstn. lia.
Qed.

Lemma page_is_never_empty_witness :
  pagedResults [1; 2; 3; 4; 5] 2 99 = [5].
Proof.
  destruct (page_is_never_empty nat [1; 2; 3; 4; 5] 2 99) as [H _].
  - discriminate.
  - lia.
  - reflexivity.
Defined.

(** X2.  The pages 1 to [totalPages], one after the other, are the results:
    no result is left out and none is drawn twice. *)
Theorem pages_partition_results :
  forall (A : Type) (results : list A) (maxItems : Z),
    (0 < maxItems)%Z ->
    List.concat
      (map (pagedResults results maxItems)
           (pages_from_to 1
              (totalPages (Z.of_nat (List.length results)) maxItems)))
    = results.
Proof.
  intros A results m Hm.
  set (len := Z.of_nat (List.length results)).
  assert (totalPages len m = ceil_div len m) as HT.
  { unfold totalPages.
    now assert ((m =? 0)%Z = false) as -> by (apply Z.eqb_neq; lia). }
  pose proof (ceil_div_bounds len m Hm) as [Hlo Hhi].
  assert (0 <= ceil_div len m)%Z as Hnn by (subst len; nia).
  unfold pages_from_to. rewrite map_map, HT.
  replace (ceil_div len m - 1 + 1)%Z with (ceil_div len m) by lia.
  etransitivity;
    [|apply (chunks_concat (Z.to_nat m) (Z.to_nat (ceil_div len m)) results);
      subst len; nia].
  f_equal. apply map_ext_in. intros i Hi. apply in_seq in Hi.
  apply pagedResults_chunk; [assumption|]. fold len. nia.
Qed.

Lemma pages_partition_results_witness :
  List.concat (map (pagedResults [1; 2; 3; 4; 5] 2) [1; 2; 3]%Z) = [1; 2; 3; 4; 5].
Proof.
  apply (pages_partition_results nat [1; 2; 3; 4; 5] 2). lia.
Defined.

Lemma clampPage_first (len maxItems : Z) : clampPage len maxItems 1 = 1%Z.
Proof. unfold clampPage. lia. Qed.

Lemma load_more_after_doubles (len m : Z) (clicks : nat) :
  m <> 0%Z -> load_more_after len m clicks = (2 ^ Z.of_nat clicks * m)%Z.
Proof.
  intros Hm. induction clicks as [|k IH].
  - cbn [load_more_after]. change (Z.of_nat 0) with 0%Z.
    rewrite Z.pow_0_r. lia.
  - cbn [load_more_after]. rewrite IH.
    unfold load_more_next, endIndex, startIndex.
    rewrite clampPage_first.
    assert (2 ^ Z.of_nat k * m <> 0)%Z as Hk.
    { pose proof (Z.pow_pos_nonneg 2 (Z.of_nat k)). nia. }
    apply Z.eqb_neq in Hk. rewrite Hk.
    rewrite Nat2Z.inj_succ, Z.pow_succ_r by lia. lia.
Qed.

(** X3.  Load More shows a growing prefix of the results, and its size doubles
    with every click: after [clicks] clicks the first [2 ^ clicks *
    maxItems] results are drawn, and the button is drawn again exactly
    when that is fewer than all of them. *)
Theorem load_more_doubles :
  forall (A : Type) (results : list A) (maxItems : Z) (clicks : nat),
    (0 < maxItems)%Z ->
    pagedResults results
      (load_more_after (Z.of_nat (List.length results)) maxItems clicks) 1
    = firstn (Z.to_nat (2 ^ Z.of_nat clicks * maxItems)) results
    /\ load_more_shown (Z.of_nat (List.length results))
         (load_more_after (Z.of_nat (List.length results)) maxItems clicks) 1
       = (2 ^ Z.of_nat clicks * maxItems <? Z.of_nat (List.length results))%Z.
Proof.
  intros A results m k Hm.
  rewrite load_more_after_doubles by lia.
  set (n := (2 ^ Z.of_nat k * m)%Z).
  assert (0 < n)%Z as Hn
    by (subst n; pose proof (Z.pow_pos_nonneg 2 (Z.of_nat k)); nia).
  assert (endIndex (Z.of_nat (List.length results)) n 1 = n) as He.
  { unfold endIndex, startIndex. rewrite clampPage_first.
    assert ((n =? 0)%Z = false) as -> by (apply Z.eqb_neq; lia). lia. }
  split.
  - destruct results as [|x results]; [now rewrite firstn_nil|].
    change (pagedResults (x :: results) n 1)
      with (pagedResults (x :: results) n (1 + Z.of_nat 0)).
    rewrite pagedResults_chunk by (simpl; lia). reflexivity.
  - unfold load_more_shown. now rewrite He.
Qed.

Lemma load_more_doubles_witness :
  pagedResults [1; 2; 3; 4; 5; 6; 7] (load_more_after 7 1 2) 1 = [1; 2; 3; 4]
  /\ load_more_shown 7 (load_more_after 7 1 2) 1 = true.
Proof.
  destruct (load_more_doubles nat [1; 2; 3; 4; 5; 6; 7] 1 2) as [H1 H2].
  - lia.
  - split; [exact H1 | exact H2].
Defined.

(** ** Numbered pagination *)

Lemma page_window_spec (T c : Z) :
  (1 < T)%Z -> (1 <= c <= T)%Z ->
  (1 <= fst (page_window T c)
   /\ fst (page_window T c) <= c
   /\ c <= snd (page_window T c)
   /\ snd (page_window T c) <= T
   /\ snd (page_window T c) - fst (page_window T c) + 1 = Z.min 7 T)%Z.
Proof.
  intros HT Hc. unfold page_window. cbn [fst snd].
  set (mv := Z.min 7 T).
  assert (2 <= mv <= 7)%Z as Hmv by (subst mv; lia).
  assert (mv <= T)%Z as HmvT by (subst mv; lia).
  pose proof (Z.div_mod mv 2 ltac:(lia)) as Hd.
  pose proof (Z.mod_pos_bound mv 2 ltac:(lia)) as Hr.
  set (h := (mv / 2)%Z) in *.
  destruct (Z.ltb_spec
              (Z.min T (Z.max 1 (c - h) + mv - 1) - Z.max 1 (c - h))
              (mv - 1)); lia.
Qed.

Lemma in_pages_from_to (s e p : Z) :
  In p (pages_from_to s e) <-> (s <= p <= e)%Z.
Proof.
  unfold pages_from_to. rewrite in_map_iff. split.
  - intros (i & <- & Hi). apply in_seq in Hi. lia.
  - intros H. exists (Z.to_nat (p - s)). split; [lia|].
    apply in_seq. lia.
Qed.

(** X4.  On the page that is drawn, the numbered buttons form a window of
    [min 7 totalPages] consecutive pages that contains the current page;
    and every button of the pagination -- previous, first, the window,
    last, next -- leads to a page between 1 and [totalPages]. *)
Theorem pagination_buttons_are_valid :
  forall (len maxItems currentPage : Z),
    (1 < totalPages len maxItems)%Z ->
    (totalPages len maxItems <= 100)%Z ->
    (snd (page_window (totalPages len maxItems)
            (clampPage len maxItems currentPage))
     - fst (page_window (totalPages len maxItems)
              (clampPage len maxItems currentPage)) + 1
     = Z.min 7 (totalPages len maxItems))%Z
    /\ In (clampPage len maxItems currentPage)
          (pages_from_to
             (fst (page_window (totalPages len maxItems)
                     (clampPage len maxItems currentPage)))
             (snd (page_window (totalPages len maxItems)
                     (clampPage len maxItems currentPage))))
    /\ Forall (fun p => (1 <= p <= totalPages len maxItems)%Z)
              (page_buttons (totalPages len maxItems)
                 (clampPage len maxItems currentPage)).
Proof.
  intros len m cur HT H100.
  set (T := totalPages len m) in *.
  pose proof (clampPage_range len m cur ltac:(fold T; lia)) as Hc.
  fold T in Hc. set (c := clampPage len m cur) in *.
  destruct (page_window_spec T c HT Hc) as (H1 & H2 & H3 & H4 & H5).
  split; [exact H5|]. split; [apply in_pages_from_to; lia|].
  unfold page_buttons.
  assert ((1 <? T)%Z = true) as -> by (apply Z.ltb_lt; lia).
  assert ((T <=? 100)%Z = true) as -> by (apply Z.leb_le; lia).
  cbn [andb].
  destruct (page_window T c) as [s e] eqn:W. cbn [fst snd] in *.
  repeat rewrite Forall_app. repeat split.
  - destruct (Z.ltb_spec 1 c); constructor; [lia | constructor].
  - destruct (Z.ltb_spec 1 s); constructor; [lia | constructor].
  - apply Forall_forall. intros p Hp. apply in_pages_from_to in Hp. lia.
  - destruct (Z.ltb_spec e T); constructor; [lia | constructor].
  - destruct (Z.ltb_spec c T); constructor; [lia | constructor].
Qed.

Lemma pagination_buttons_are_valid_witness :
  page_buttons 10 10 = [9; 1; 4; 5; 6; 7; 8; 9; 10]%Z
  /\ Forall (fun p => (1 <= p <= 10)%Z) (page_buttons 10 10).
Proof.
  destruct (pagination_buttons_are_valid 47 5 12) as (_ & _ & H).
  - vm_compute. reflexivity.
  - vm_compute. discriminate.
  - split; [reflexivity | exact H].
Defined.

(** ** Grid columns *)

(** X5.  The number of grid columns is between 1 and 6 on every screen, it is
    1 on screens up to 675 pixels wide, and a wider screen never gets
    fewer columns than a narrower one. *)
Theorem grid_columns_bounded_and_monotone :
  forall (gridColumns w1 w2 : Z),
    (1 <= getResponsiveGridColumns w1 gridColumns <= 6)%Z
    /\ ((1 <= w1 <= 675)%Z -> getResponsiveGridColumns w1 gridColumns = 1%Z)
    /\ ((1 <= w1 <= w2)%Z ->
        (getResponsiveGridColumns w1 gridColumns
         <= getResponsiveGridColumns w2 gridColumns)%Z).
Proof.
  intros g w1 w2. unfold getResponsiveGridColumns.
  set (mc := Z.max 1 (Z.min (if (g =? 0)%Z then 3%Z else g) 6)).
  assert (1 <= mc <= 6)%Z as Hmc by (subst mc; lia).
  repeat split.
  - destruct (w1 =? 0)%Z;
      repeat match goal with
             | |- context [(?a <=? ?b)%Z] => destruct (Z.leb_spec a b)
             end; lia.
  - destruct (w1 =? 0)%Z;
      repeat match goal with
             | |- context [(?a <=? ?b)%Z] => destruct (Z.leb_spec a b)
             end; lia.
  - intros H. assert ((w1 =? 0)%Z = false) as -> by (apply Z.eqb_neq; lia).
    repeat match goal with
           | |- context [(?a <=? ?b)%Z] => destruct (Z.leb_spec a b)
           end; lia.
  - intros H.
    assert ((w1 =? 0)%Z = false) as -> by (apply Z.eqb_neq; lia).
    assert ((w2 =? 0)%Z = false) as -> by (apply Z.eqb_neq; lia).
    repeat match goal with
           | |- context [(?a <=? ?b)%Z] => destruct (Z.leb_spec a b)
           end; lia.
Qed.

Lemma grid_columns_bounded_and_monotone_witness :
  (getResponsiveGridColumns 600 4 = 1
   /\ getResponsiveGridColumns 800 4 <= getResponsiveGridColumns 1300 4)%Z.
Proof.
  destruct (grid_columns_bounded_and_monotone 4 600 1300) as (_ & H1 & _).
  destruct (grid_columns_bounded_and_monotone 4 800 1300) as (_ & _ & H2).
  split.
  - apply H1. lia.
  - apply H2. lia.
Defined.

(** ** Titles, links and images of a result *)

Lemma js_or_truthy (a : option Json) (b : Json) :
  truthy b = true -> truthy (js_or a b) = true.
Proof.
  intros Hb. destruct a as [x|]; simpl; [|assumption].
  destruct (truthy x) eqn:T; assumption.
Qed.

(** X6.  Every card gets a title and a link that are not empty: whatever the
    item holds, [titleText] and [detailUrl] are truthy (at worst
    "Untitled" and "#"). *)
Theorem card_title_and_link_never_empty :
  forall item : JsObject,
    truthy (titleText item) = true /\ truthy (detailUrl item) = true.
Proof.
  intros item. split.
  - unfold titleText. repeat apply js_or_truthy. reflexivity.
  - unfold detailUrl. destruct (is_page (JsMap.get item "_type"));
      repeat apply js_or_truthy; reflexivity.
Qed.

(** X7.  The link of a result follows the index that returned it, not a [_type]
    of the record itself: an item tagged by the page sub-request links to
    its [publishedPath], else its [slug], else "#"; an item tagged by the
    collection sub-request links to its [detailUrl], else "#".  The tag
    changes neither of these fields nor the title. *)
Theorem link_follows_the_tag :
  forall item : Json,
    detailUrl (tag "page" item)
    = js_or (JsMap.get (spread item) "publishedPath")
        (js_or (JsMap.get (spread item) "slug") (JStr "#"))
    /\ detailUrl (tag "cms" item)
       = js_or (JsMap.get (spread item) "detailUrl") (JStr "#")
    /\ (forall type, titleText (tag type item) = titleText (spread item)).
Proof.
  intros item. unfold detailUrl, titleText.
  rewrite !tag_type. cbn [is_page String.eqb Ascii.eqb Bool.eqb andb].
  split; [|split]; [| |intros type];
    rewrite !tag_keeps by discriminate; reflexivity.
Qed.

Lemma find_has_url (item : JsObject) :
  first_with_url item = JNull ->
  (forall k v, In (k, v) item -> has_url v = true -> False).
Proof.
  unfold first_with_url. intros H k v Hin Hv.
  destruct (find (fun kv => has_url (snd kv)) item) as [[k' v']|] eqn:F.
  - apply find_some in F as [_ F]. simpl in F. subst v'. discriminate.
  - apply (find_none _ _ F) in Hin. simpl in Hin. congruence.
Qed.

(** X8.  For an item with no usable [images] and no [featuredImage],
    [getPrimaryImage] returns [null] exactly when no field of the item is
    an object with a truthy [url]; otherwise it returns the first such
    field. *)
Theorem primary_image_fallback :
  forall item : JsObject,
    truthy_opt (JsMap.get item "images") = false ->
    truthy_opt (JsMap.get item "featuredImage") = false ->
    (getPrimaryImage item = JNull
     <-> forall k v, In (k, v) item -> has_url v = false)
    /\ (getPrimaryImage item <> JNull ->
        has_url (getPrimaryImage item) = true
        /\ exists k, In (k, getPrimaryImage item) item).
Proof.
  intros item Himg Hfeat.
  assert (getPrimaryImage item = first_with_url item) as ->.
  { unfold getPrimaryImage, featured_or_first.
    destruct (JsMap.get item "images") as [images|];
      destruct (JsMap.get item "featuredImage") as [featured|];
      simpl in Himg, Hfeat; rewrite ?Himg, ?Hfeat; reflexivity. }
  unfold first_with_url.
  destruct (find (fun kv => has_url (snd kv)) item) as [[k v]|] eqn:F.
  - apply find_some in F as [Hin Hv]. simpl in Hv.
    split; [split|].
    + intros ->. discriminate.
    + intros H. rewrite (H k v Hin) in Hv. discriminate.
    + intros _. split; [assumption | now exists k].
  - split; [split|].
    + intros _ k v Hin. apply (find_none _ _ F) in Hin. exact Hin.
    + reflexivity.
    + congruence.
Qed.

Lemma primary_image_fallback_witness :
  getPrimaryImage
    [("name", JStr "a"); ("_type", JStr "cms");
     ("cover", JObj [("url", JStr "https://example.org/a.png")])]
  = JObj [("url", JStr "https://example.org/a.png")]
  /\ getPrimaryImage [("name", JStr "a"); ("_type", JStr "cms")] = JNull.
Proof.
  destruct (primary_image_fallback [("name", JStr "a"); ("_type", JStr "cms")])
    as [[_ H] _].
  - reflexivity.
  - reflexivity.
  - split; [reflexivity|]. apply H.
    intros k v [E|[E|[]]]; inversion E; reflexivity.
Defined.

(** ** Debouncing *)

(** X9.  The delay of a preload, by the length of the query (two
    characters or more): 50 ms for two characters, 15 ms per character for
    three to thirteen characters, 200 ms from fourteen characters on; so it
    is always between 45 and 200 ms, and a query of three characters waits
    less than one of two. *)
Theorem debounce_delay_bounds :
  forall query : string,
    2 <= String.length query ->
    (45 <= debounce_delay query <= 200)%Z
    /\ (String.length query = 2 -> debounce_delay query = 50%Z)
    /\ (3 <= String.length query <= 13 ->
        debounce_delay query = (15 * Z.of_nat (String.length query))%Z)
    /\ (14 <= String.length query -> debounce_delay query = 200%Z).
Proof.
  intros query H. unfold debounce_delay.
  destruct (Z.leb_spec (Z.of_nat (String.length query)) 2); repeat split;
    intros; lia.
Qed.

Lemma debounce_delay_bounds_witness :
  (debounce_delay "abc" = 45 /\ debounce_delay "ab" = 50
   /\ debounce_delay "shoes" = 75)%Z.
Proof.
  destruct (debounce_delay_bounds "abc") as (_ & _ & H3 & _); [simpl; lia|].
  destruct (debounce_delay_bounds "ab") as (_ & H2 & _); [simpl; lia|].
  destruct (debounce_delay_bounds "shoes") as (_ & _ & H5 & _);
    [simpl; lia|].
  split; [|split].
  - rewrite H3; [reflexivity | simpl; lia].
  - apply H2. reflexivity.
  - rewrite H5; [reflexivity | simpl; lia].
Defined.

Lemma filter_length_one {A : Type} (f : A -> bool) (l : list A) :
  List.length l <= 1 -> List.length (filter f l) <= 1.
Proof. intros H. pose proof (filter_length_le f l). lia. Qed.

Lemma fire_debounced id t : debounced t -> debounced (fire id t).
Proof.
  intros [Hlen Hall]. unfold debounced, fire. simpl. split.
  - now apply filter_length_one.
  - intros e He. apply filter_In in He as [He _]. now apply Hall.
Qed.

(** Clearing the remembered timer leaves no timer. *)
Lemma clear_remembered t :
  debounced t -> active (clearTimeout (searchDebounceTimer t) t) = [].
Proof.
  intros [Hlen Hall]. unfold clearTimeout.
  destruct (active t) as [|e [|e' rest]] eqn:E; simpl in Hlen; try lia.
  - destruct (searchDebounceTimer t); simpl; now rewrite ?E.
  - rewrite (Hall e) by (now left). simpl. rewrite ?E. simpl.
    now rewrite Nat.eqb_refl.
Qed.

Lemma optimizedDebouncedSearch_active query t :
  debounced t ->
  2 <= String.length query ->
  active (optimizedDebouncedSearch query t)
  = [(next_timer t, (query, debounce_delay query))]
  /\ searchDebounceTimer (optimizedDebouncedSearch query t)
     = Some (next_timer t).
Proof.
  intros Hd Hq. unfold optimizedDebouncedSearch.
  apply Nat.leb_le in Hq. rewrite Hq. simpl.
  rewrite (clear_remembered t Hd).
  unfold clearTimeout. destruct (searchDebounceTimer t); simpl; now split.
Qed.

Lemma optimizedDebouncedSearch_short query t :
  debounced t ->
  String.length query < 2 ->
  active (optimizedDebouncedSearch query t) = [].
Proof.
  intros Hd Hq. unfold optimizedDebouncedSearch.
  apply Nat.leb_gt in Hq. rewrite Hq. now apply clear_remembered.
Qed.

Lemma optimizedDebouncedSearch_debounced query t :
  debounced t -> debounced (optimizedDebouncedSearch query t).
Proof.
  intros Hd.
  destruct (Nat.le_gt_cases 2 (String.length query)) as [Hq|Hq].
  - destruct (optimizedDebouncedSearch_active query t Hd Hq) as [Ha Hs].
    unfold debounced. rewrite Ha, Hs. simpl. split; [lia|].
    intros e [<-|[]]. reflexivity.
  - unfold debounced.
    rewrite (optimizedDebouncedSearch_short query t Hd Hq). simpl.
    split; [lia | tauto].
Qed.

Lemma on_input_debounced query documentQuery t :
  debounced t -> debounced (on_input query documentQuery t).
Proof.
  intros Hd. unfold on_input.
  destruct (Nat.leb 2 (String.length query)); [|assumption].
  now apply optimizedDebouncedSearch_debounced.
Qed.

Lemma timers_after_debounced_from events : forall t,
  debounced t -> debounced (fold_left page_step events t).
Proof.
  induction events as [|[query documentQuery|id] events IH]; intros t Hd;
    simpl.
  - assumption.
  - apply IH. now apply on_input_debounced.
  - apply IH. now apply fire_debounced.
Qed.

(** X10.  Debouncing works: after any run of input events and timer
    firings on a fresh page, at most one preload is waiting, and it is the
    one whose timer the page remembers.  Right after an input event on an
    input that holds two or more characters, what waits is decided by the
    text that [optimizedDebouncedSearch] reads from the document: with two
    or more characters, exactly the preload of that text, with its delay;
    with fewer, nothing. *)
Theorem at_most_one_preload_waits :
  forall (events : list PageEvent),
    debounced (timers_after events)
    /\ forall query documentQuery,
         2 <= String.length query ->
         (2 <= String.length documentQuery ->
          map snd
            (active (timers_after (events ++ [Typed query documentQuery])))
          = [(documentQuery, debounce_delay documentQuery)])
         /\ (String.length documentQuery < 2 ->
             active (timers_after (events ++ [Typed query documentQuery]))
             = []).
Proof.
  intros events.
  assert (debounced (timers_after events)) as Hd.
  { apply timers_after_debounced_from. unfold debounced, no_timers. simpl.
    split; [lia | tauto]. }
  split; [exact Hd|].
  intros query documentQuery Hq.
  unfold timers_after in *. rewrite fold_left_app. simpl.
  unfold on_input. apply Nat.leb_le in Hq. rewrite Hq.
  split; intros Hdoc.
  - destruct (optimizedDebouncedSearch_active documentQuery _ Hd Hdoc)
      as [-> _].
    reflexivity.
  - now apply optimizedDebouncedSearch_short.
Qed.

Lemma at_most_one_preload_waits_witness :
  map snd
    (active (timers_after [Typed "sh" "sh"; Typed "sho" "sho";
                           Typed "shoe" "boots"]))
  = [("boots", 75%Z)].
Proof.
  destruct (at_most_one_preload_waits [Typed "sh" "sh"; Typed "sho" "sho"])
    as [_ H].
  apply (H "shoe" "boots"); simpl; lia.
Defined.

(** X11.  Shortening the input below two characters does not cancel the
    preload that waits: the listener only calls [optimizedDebouncedSearch]
    for two characters or more, so the timer of the longer query stays
    active and will fire. *)
Theorem short_input_keeps_stale_preload :
  forall (events : list PageEvent) (query documentQuery : string),
    String.length query < 2 ->
    timers_after (events ++ [Typed query documentQuery])
    = timers_after events.
Proof.
  intros events query documentQuery Hq.
  unfold timers_after. rewrite fold_left_app. simpl.
  unfold on_input. apply Nat.leb_gt in Hq. now rewrite Hq.
Qed.

Lemma short_input_keeps_stale_preload_witness :
  map snd (active (timers_after [Typed "shoes" "shoes"; Typed "s" "s"]))
  = [("shoes", 75%Z)].
Proof.
  change [Typed "shoes" "shoes"; Typed "s" "s"]
    with ([Typed "shoes" "shoes"] ++ [Typed "s" "s"]).
  rewrite (short_input_keeps_stale_preload [Typed "shoes" "shoes"] "s" "s").
  - reflexivity.
  - simpl. lia.
Defined.

(** ** The visitor id *)

(** X12.  The visitor id is created once: after a call the storage holds the id
    that was returned, and every later call returns that id and leaves the
    storage as it is, whatever [crypto.randomUUID()] would give then. *)
Theorem visitor_id_is_stable :
  forall (uuid uuid' : string) (localStorage : Storage),
    uuid <> "" ->
    fst (getOrCreateVisitorId uuid localStorage) <> ""
    /\ JsMap.get (snd (getOrCreateVisitorId uuid localStorage)) "visitorId"
       = Some (fst (getOrCreateVisitorId uuid localStorage))
    /\ getOrCreateVisitorId uuid' (snd (getOrCreateVisitorId uuid localStorage))
       = getOrCreateVisitorId uuid localStorage
    /\ (forall k, k <> "visitorId" ->
          JsMap.get (snd (getOrCreateVisitorId uuid localStorage)) k
          = JsMap.get localStorage k).
Proof.
  intros uuid uuid' ls Hu.
  apply String.eqb_neq in Hu as Hu'.
  unfold getOrCreateVisitorId at 1 2 3 5 6 7.
  destruct (JsMap.get ls "visitorId") as [v|] eqn:G.
  - destruct (String.eqb v "") eqn:E; simpl.
    + repeat split.
      * assumption.
      * apply get_set_same.
      * unfold getOrCreateVisitorId. rewrite get_set_same, Hu'. reflexivity.
      * intros k Hk. now apply get_set_other.
    + repeat split.
      * now apply String.eqb_neq.
      * assumption.
      * unfold getOrCreateVisitorId. rewrite G, E. reflexivity.
  - simpl. repeat split.
    + assumption.
    + apply get_set_same.
    + unfold getOrCreateVisitorId. rewrite get_set_same, Hu'. reflexivity.
    + intros k Hk. now apply get_set_other.
Qed.

Lemma visitor_id_is_stable_witness :
  getOrCreateVisitorId "second"
    (snd (getOrCreateVisitorId "first" [("visitorId", "")]))
  = ("first", [("visitorId", "first")]).
Proof.
  destruct (visitor_id_is_stable "first" "second" [("visitorId", "")])
    as (_ & _ & H & _).
  - discriminate.
  - rewrite H. reflexivity.
Defined.

(** ** More on the cache *)

Lemma keys_set_present {V : Type} (m : JsMap.Map V) k v :
  In k (JsMap.keys m) -> JsMap.keys (JsMap.set m k v) = JsMap.keys m.
Proof.
  induction m as [|[k0 v0] m IH]; simpl; [tauto|].
  intros Hin. destruct (String.eqb k0 k) eqn:E; simpl.
  - apply String.eqb_eq in E. now subst.
  - apply String.eqb_neq in E. f_equal. apply IH. tauto.
Qed.

Lemma size_is_keys {V : Type} (m : JsMap.Map V) :
  JsMap.size m = List.length (JsMap.keys m).
Proof. unfold JsMap.size, JsMap.keys. now rewrite length_map. Qed.

(** X13.  A store under a key that is already cached, below capacity, replaces
    the results and the timestamp (it does not merge), and it does not
    renew the age of the entry: the keys keep their order, so the entry
    is evicted when its first insertion is the oldest. *)
Theorem restore_replaces_and_keeps_age :
  forall (query opt : string) (rs : list JsObject) (now : Z) (c : Cache),
    JsMap.has c (cacheKey query opt) = true ->
    JsMap.size c < MAX_CACHE_SIZE ->
    JsMap.get (setCachedResults query opt rs now c) (cacheKey query opt)
    = Some (mkEntry rs now)
    /\ JsMap.keys (setCachedResults query opt rs now c) = JsMap.keys c
    /\ JsMap.first_key (setCachedResults query opt rs now c)
       = JsMap.first_key c.
Proof.
  intros query opt rs now c Hhas Hsize. unfold setCachedResults.
  apply Nat.leb_gt in Hsize. rewrite Hsize.
  assert (In (cacheKey query opt) (JsMap.keys c)) as Hin.
  { unfold JsMap.has in Hhas.
    destruct (JsMap.get c (cacheKey query opt)) eqn:G; [|discriminate].
    destruct (in_dec string_dec (cacheKey query opt) (JsMap.keys c))
      as [H|H]; [assumption|].
    apply get_none_iff in H. congruence. }
  split; [apply get_set_same|].
  pose proof (keys_set_present c (cacheKey query opt) (mkEntry rs now) Hin)
    as Hk.
  split; [exact Hk|].
  destruct c as [|[k0 v0] c]; [contradiction|].
  simpl in Hk |- *. destruct (String.eqb k0 (cacheKey query opt)) eqn:E.
  - apply String.eqb_eq in E. now subst.
  - reflexivity.
Qed.

Lemma restore_replaces_and_keeps_age_witness :
  JsMap.keys
    (setCachedResults "A" "Pages" [] 7
       (store_all (stores 3) JsMap.empty))
  = ["a_Pages"; "aa_Pages"; "aaa_Pages"].
Proof.
  destruct (restore_replaces_and_keeps_age "A" "Pages" [] 7
              (store_all (stores 3) JsMap.empty)) as (_ & H & _).
  - reflexivity.
  - apply Nat.ltb_lt. vm_compute. reflexivity.
  - rewrite H. reflexivity.
Defined.

(** ** More on the coordinator *)

Lemma merge_results_settles results : forall acc w,
  fst (merge_results results acc w) <> Hangs.
Proof.
  induction results as [|[value|reason] results IH]; intros acc w; simpl.
  - discriminate.
  - destruct (sr_success value); [|apply IH].
    unfold bind, array_map.
    destruct (sr_data value); simpl; try discriminate. apply IH.
  - apply IH.
Qed.

Lemma executeParallelSearches_settles net query cfg w :
  fst (executeParallelSearches net query cfg w) <> Hangs.
Proof.
  destruct (executeParallelSearches_spec net query cfg w) as (-> & _).
  apply merge_results_settles.
Qed.

(** X14.  A search reads nothing of the page's state and writes nothing
    to the cache.  For the search as the browser runs it, with any query
    and any network: it ends the same way from every world (whatever is
    cached, whichever controllers exist or were aborted, whatever the
    clock), whether it returns, throws or stays pending; the cache after
    it is the cache before it; and for a well-formed query the clock has
    moved by the time the network took. *)
Theorem search_is_independent_of_state :
  forall (wire : Wire) (query : JsString) (cfg : SearchConfig)
         (w w' : World),
    fst (executeParallelSearches_raw wire query cfg w)
    = fst (executeParallelSearches_raw wire query cfg w')
    /\ searchCache (snd (executeParallelSearches_raw wire query cfg w))
       = searchCache w
    /\ (isWellFormed query = true ->
        clock (snd (executeParallelSearches_raw wire query cfg w))
        = (clock w + elapsed (wire_net wire))%Z).
Proof.
  intros wire query cfg w w'.
  destruct (executeParallelSearches_raw_spec wire query cfg w)
    as (H1 & H2 & H3).
  destruct (executeParallelSearches_raw_spec wire query cfg w')
    as (H1' & _).
  split; [congruence|]. split; assumption.
Qed.

Lemma search_is_independent_of_state_witness :
  fst (executeParallelSearches_raw wire_stalled query_shoes cfg_pages
         initial_world)
  = fst (executeParallelSearches_raw wire_stalled query_shoes cfg_pages
           (snd (superseded_preload initial_world)))
  /\ clock (snd (executeParallelSearches_raw (wire_of net_pages_only)
                   query_shoes cfg_pages initial_world))
     = 120%Z.
Proof.
  split.
  - exact (proj1 (search_is_independent_of_state wire_stalled query_shoes
                    cfg_pages initial_world
                    (snd (superseded_preload initial_world)))).
  - exact (proj2 (proj2 (search_is_independent_of_state
                           (wire_of net_pages_only) query_shoes cfg_pages
                           initial_world initial_world)) eq_refl).
Defined.

Lemma preloadSearchData_returns net query cfg w :
  fst (preloadSearchData net query cfg w) = Returns tt.
Proof.
  unfold preloadSearchData, try_catch, bind, emit, store_cache.
  cbv iota beta.
  match goal with
  | |- context [executeParallelSearches net query cfg ?w1] =>
      pose proof (executeParallelSearches_settles net query cfg w1) as Hs;
      destruct (executeParallelSearches net query cfg w1) as [[items|e|] w2]
  end; simpl in Hs |- *; congruence.
Qed.

Lemma performSearchFast_returns net query cfg w :
  fst (performSearchFast net query cfg w) = Returns tt.
Proof.
  unfold performSearchFast.
  destruct (String.eqb query ""); [reflexivity|].
  unfold bind at 1. unfold lookup_cache.
  destruct (getCachedResults query (selectedOption cfg) (clock w)
              (searchCache w)) as [[rs|] c].
  - unfold bind, emit. cbv iota beta.
    destruct (Nat.eqb (List.length rs) 0); reflexivity.
  - unfold bind, try_catch, emit, store_cache. cbv iota beta.
    match goal with
    | |- context [executeParallelSearches net query cfg ?w1] =>
        pose proof (executeParallelSearches_settles net query cfg w1) as Hs;
        destruct (executeParallelSearches net query cfg w1)
          as [[items|e|] w2]
    end; simpl in Hs |- *; try congruence.
    destruct (Nat.eqb (List.length items) 0); reflexivity.
Qed.

Lemma text_of_cons c query : String.eqb (text_of (c :: query)) "" = false.
Proof.
  unfold text_of.
  assert (exists b bytes,
            flat_map utf8_bytes (code_points (c :: query)) = b :: bytes)
    as (b & bytes & ->).
  { assert (exists cp cps, code_points (c :: query) = cp :: cps)
      as (cp & cps & ->).
    { simpl. destruct query as [|d query]; [now eexists; eexists|].
      destruct (is_high_surrogate c && is_low_surrogate d);
        now eexists; eexists. }
    simpl. unfold utf8_bytes.
    destruct (cp <? 0x80)%N; [now eexists; eexists|].
    destruct (cp <? 0x800)%N; [now eexists; eexists|].
    destruct (cp <? 0x10000)%N; now eexists; eexists. }
  reflexivity.
Qed.

Lemma bind_ext {A B : Type} (m : M A) (k k' : A -> M B) w :
  (forall a w', k a w' = k' a w') -> bind m k w = bind m k' w.
Proof.
  intros H. unfold bind. destruct (m w) as [[a|e|] w1]; [apply H| |];
    reflexivity.
Qed.

Lemma try_catch_ext {A : Type} (body body' : M A) handler w :
  body w = body' w -> try_catch body handler w = try_catch body' handler w.
Proof. intros H. unfold try_catch. now rewrite H. Qed.

(** For a well-formed query and bodies that arrive, the callers are the
    ones on the network of replies, for the text of the query. *)
Lemma performSearchFast_raw_sound wire query cfg w :
  isWellFormed query = true ->
  (forall url, body_arrives wire url = true) ->
  performSearchFast_raw wire query cfg w
  = performSearchFast (wire_net wire) (text_of query) cfg w.
Proof.
  intros Hq Hb. unfold performSearchFast_raw, performSearchFast.
  destruct query as [|c query]; [reflexivity|].
  rewrite text_of_cons.
  apply bind_ext. intros [rs|] w1; [reflexivity|].
  apply bind_ext. intros _ w2. apply bind_ext. intros _ w3.
  apply try_catch_ext.
  unfold bind at 1 5.
  now rewrite (executeParallelSearches_raw_sound wire (c :: query) cfg w3
                 Hq Hb).
Qed.

Lemma preloadSearchData_raw_sound wire query cfg w :
  isWellFormed query = true ->
  (forall url, body_arrives wire url = true) ->
  preloadSearchData_raw wire query cfg w
  = preloadSearchData (wire_net wire) (text_of query) cfg w.
Proof.
  intros Hq Hb.
  unfold preloadSearchData_raw, preloadSearchData.
  apply try_catch_ext. apply bind_ext. intros _ w1.
  unfold bind at 1 3.
  now rewrite (executeParallelSearches_raw_sound wire query cfg w1 Hq Hb).
Qed.

(** X15.  Neither caller lets an error of the search out.  For the callers
    over the search as the browser runs it, with any query, network,
    option and world: no error is thrown by [performSearchFast] or by
    [preloadSearchData], also when the search throws (a [TypeError] on a
    body that breaks the contract, a [URIError] on a lone surrogate); the
    [try ... catch] around the search takes every error.  A caller may
    stay pending, when the search does. *)
Theorem callers_never_throw :
  forall (wire : Wire) (query : JsString) (cfg : SearchConfig) (w : World)
         (e : JsError),
    fst (performSearchFast_raw wire query cfg w) <> Throws e
    /\ fst (preloadSearchData_raw wire query cfg w) <> Throws e.
Proof.
  intros wire query cfg w e. split.
  - unfold performSearchFast_raw.
    destruct query as [|c query]; [discriminate|].
    unfold bind at 1. unfold lookup_cache.
    destruct (getCachedResults (text_of (c :: query)) (selectedOption cfg)
                (clock w) (searchCache w)) as [[rs|] cache].
    + unfold bind, emit. cbv iota beta.
      destruct (Nat.eqb (List.length rs) 0); discriminate.
    + unfold bind, try_catch, emit, store_cache. cbv iota beta.
      match goal with
      | |- context [executeParallelSearches_raw wire (c :: query) cfg ?w1] =>
          destruct (executeParallelSearches_raw wire (c :: query) cfg w1)
            as [[items|e'|] w2]
      end; simpl; try discriminate.
      destruct (Nat.eqb (List.length items) 0); discriminate.
  - unfold preloadSearchData_raw, try_catch, bind, emit, store_cache.
    cbv iota beta.
    match goal with
    | |- context [executeParallelSearches_raw wire query cfg ?w1] =>
        destruct (executeParallelSearches_raw wire query cfg w1)
          as [[items|e'|] w2]
    end; simpl; discriminate.
Qed.

Lemma executeParallelSearches_fst_any net query cfg w w' :
  fst (executeParallelSearches net query cfg w)
  = fst (executeParallelSearches net query cfg w').
Proof.
  destruct (executeParallelSearches_spec net query cfg w) as (-> & _).
  destruct (executeParallelSearches_spec net query cfg w') as (-> & _).
  reflexivity.
Qed.

(** X16.  A search that throws (a body that breaks the contract) leaves the
    cache as it was under both callers; [performSearchFast] then draws the
    error message. *)
Theorem failed_search_leaves_cache :
  forall (net : Network) (query : string) (cfg : SearchConfig) (w : World)
         (e : JsError),
    query <> "" ->
    fst (getCachedResults query (selectedOption cfg) (clock w) (searchCache w))
    = None ->
    fst (executeParallelSearches net query cfg w) = Throws e ->
    searchCache (snd (performSearchFast net query cfg w)) = searchCache w
    /\ In EvRenderError (log (snd (performSearchFast net query cfg w)))
    /\ searchCache (snd (preloadSearchData net query cfg w)) = searchCache w.
Proof.
  intros net query cfg w e Hq Hmiss Hthrow.
  split; [|split].
  - unfold performSearchFast.
    apply String.eqb_neq in Hq. rewrite Hq.
    unfold bind at 1. unfold lookup_cache.
    pose proof (getCachedResults_same_cache query (selectedOption cfg)
                  (clock w) (searchCache w)) as Hsame.
    destruct (getCachedResults query (selectedOption cfg) (clock w)
                (searchCache w)) as [r c].
    simpl in Hmiss, Hsame. subst r c.
    unfold bind, try_catch, emit. cbv iota beta.
    match goal with
    | |- context [executeParallelSearches net query cfg ?w1] =>
        destruct (executeParallelSearches_spec net query cfg w1)
          as (_ & Hc & _);
        pose proof (executeParallelSearches_fst_any net query cfg w1 w) as Hf;
        destruct (executeParallelSearches net query cfg w1) as [o w2]
    end.
    simpl in Hf, Hc. rewrite Hthrow in Hf. subst o. simpl. exact Hc.
  - unfold performSearchFast.
    apply String.eqb_neq in Hq. rewrite Hq.
    unfold bind at 1. unfold lookup_cache.
    destruct (getCachedResults query (selectedOption cfg) (clock w)
                (searchCache w)) as [r c].
    simpl in Hmiss. subst r.
    unfold bind, try_catch, emit. cbv iota beta.
    match goal with
    | |- context [executeParallelSearches net query cfg ?w1] =>
        pose proof (executeParallelSearches_fst_any net query cfg w1 w) as Hf;
        destruct (executeParallelSearches net query cfg w1) as [o w2]
    end.
    simpl in Hf. rewrite Hthrow in Hf. subst o. simpl.
    apply in_or_app. left. apply in_or_app. right. now left.
  - unfold preloadSearchData, try_catch, bind, emit. cbv iota beta.
    match goal with
    | |- context [executeParallelSearches net query cfg ?w1] =>
        destruct (executeParallelSearches_spec net query cfg w1)
          as (_ & Hc & _);
        pose proof (executeParallelSearches_fst_any net query cfg w1 w) as Hf;
        destruct (executeParallelSearches net query cfg w1) as [o w2]
    end.
    simpl in Hf, Hc. rewrite Hthrow in Hf. subst o. simpl. exact Hc.
Qed.

Lemma failed_search_leaves_cache_witness :
  searchCache
    (snd (performSearchFast net_results_string "shoes" cfg_pages
            initial_world)) = JsMap.empty
  /\ searchCache
       (snd (preloadSearchData net_results_string "shoes" cfg_pages
               initial_world)) = JsMap.empty.
Proof.
  destruct (failed_search_leaves_cache net_results_string "shoes" cfg_pages
              initial_world
              (mkError "TypeError" "result.value.data.map is not a function"))
    as (H1 & _ & H2).
  - discriminate.
  - reflexivity.
  - vm_compute. reflexivity.
  - split; [exact H1 | exact H2].
Defined.

(** ** From the cache to the screen *)

Lemma performSearchFast_hit net query cfg w rs :
  query <> "" ->
  fst (getCachedResults query (selectedOption cfg) (clock w) (searchCache w))
  = Some rs ->
  performSearchFast net query cfg w
  = (Returns tt,
     mkWorld (controllers w) (currentSearchController w) (searchCache w)
             (clock w) (log w ++ hit_events rs)).
Proof.
  intros Hq Hhit. unfold performSearchFast.
  apply String.eqb_neq in Hq. rewrite Hq.
  unfold bind at 1. unfold lookup_cache.
  pose proof (getCachedResults_same_cache query (selectedOption cfg)
                (clock w) (searchCache w)) as Hsame.
  destruct (getCachedResults query (selectedOption cfg) (clock w)
              (searchCache w)) as [r c].
  simpl in Hhit, Hsame. subst r c.
  unfold bind, emit, hit_events. cbv iota beta.
  destruct (Nat.eqb (List.length rs) 0); simpl; rewrite <- app_assoc;
    reflexivity.
Qed.

(** X17.  On a cache hit [performSearchFast] draws the cached results and does
    nothing else: no request is issued, no controller is created or
    aborted, the cache is not written. *)
Theorem cache_hit_uses_no_network :
  forall (net : Network) (query : string) (cfg : SearchConfig) (w : World)
         (rs : list JsObject),
    query <> "" ->
    fst (getCachedResults query (selectedOption cfg) (clock w) (searchCache w))
    = Some rs ->
    performSearchFast net query cfg w
    = (Returns tt,
       mkWorld (controllers w) (currentSearchController w) (searchCache w)
               (clock w) (log w ++ hit_events rs)).
Proof. exact performSearchFast_hit. Qed.

Lemma cache_hit_uses_no_network_witness :
  log (snd (performSearchFast net_unavailable "Cat" cfg_pages
              (mkWorld [] None
                 (setCachedResults "cat" "Pages" [[("name", JStr "a")]] 0
                    JsMap.empty)
                 1000 [])))
  = [EvClearResults; EvRenderResults [[("name", JStr "a")]]].
Proof.
  rewrite (cache_hit_uses_no_network net_unavailable "Cat" cfg_pages
             (mkWorld [] None
                (setCachedResults "cat" "Pages" [[("name", JStr "a")]] 0
                   JsMap.empty)
                1000 [])
             [[("name", JStr "a")]]).
  - reflexivity.
  - discriminate.
  - reflexivity.
Defined.

Lemma preloadSearchData_world net query cfg w items :
  fst (executeParallelSearches net query cfg w) = Returns items ->
  searchCache (snd (preloadSearchData net query cfg w))
  = setCachedResults query (selectedOption cfg) items
      (clock w + elapsed net) (searchCache w)
  /\ clock (snd (preloadSearchData net query cfg w))
     = (clock w + elapsed net)%Z.
Proof.
  intros Hres.
  unfold preloadSearchData, try_catch, bind, emit, store_cache.
  cbv iota beta.
  match goal with
  | |- context [executeParallelSearches net query cfg ?w1] =>
      destruct (executeParallelSearches_spec net query cfg w1)
        as (_ & Hc & Ht);
      pose proof (executeParallelSearches_fst_any net query cfg w1 w) as Hf;
      destruct (executeParallelSearches net query cfg w1) as [o w2]
  end.
  simpl in Hf, Hc, Ht. rewrite Hres in Hf. subst o. simpl.
  rewrite Hc, Ht. split; reflexivity.
Qed.

(** What a search finds after a preload of the same query, up to case. *)
Lemma preload_then_hit net net' query query' cfg w items dt :
  query' <> "" ->
  toLowerCase query' = toLowerCase query ->
  fst (executeParallelSearches net query cfg w) = Returns items ->
  (dt < CACHE_DURATION)%Z ->
  performSearchFast net' query' cfg
    (snd (advance dt (snd (preloadSearchData net query cfg w))))
  = (Returns tt,
     mkWorld (controllers (snd (preloadSearchData net query cfg w)))
       (currentSearchController (snd (preloadSearchData net query cfg w)))
       (searchCache (snd (preloadSearchData net query cfg w)))
       (clock (snd (preloadSearchData net query cfg w)) + dt)
       (log (snd (preloadSearchData net query cfg w)) ++ hit_events items)).
Proof.
  intros Hq Hlow Hres Hdt.
  destruct (preloadSearchData_world net query cfg w items Hres) as (Hc & Ht).
  rewrite (performSearchFast_hit net' query' cfg _ items Hq); [reflexivity|].
  simpl. rewrite Hc, Ht. unfold getCachedResults.
  assert (cacheKey query' (selectedOption cfg)
          = cacheKey query (selectedOption cfg)) as ->
    by (unfold cacheKey; now rewrite Hlow).
  unfold setCachedResults at 1. rewrite get_set_same. simpl.
  assert (Z.ltb (clock w + elapsed net + dt - (clock w + elapsed net))
                CACHE_DURATION = true) as -> by (apply Z.ltb_lt; lia).
  reflexivity.
Qed.

(** X18.  The preload serves the search: when a preload of a query has resolved
    to some results, a search for the same query (in any letter case)
    started less than [CACHE_DURATION] after the preload stored them draws
    exactly those results, without any request, whatever the network would
    answer by then. *)
Theorem preload_makes_search_instant :
  forall (net net' : Network) (query query' : string) (cfg : SearchConfig)
         (w : World) (items : list JsObject) (dt : Z),
    query' <> "" ->
    toLowerCase query' = toLowerCase query ->
    fst (executeParallelSearches net query cfg w) = Returns items ->
    (dt < CACHE_DURATION)%Z ->
    log (snd (performSearchFast net' query' cfg
                (snd (advance dt (snd (preloadSearchData net query cfg w))))))
    = log (snd (preloadSearchData net query cfg w)) ++ hit_events items
    /\ controllers
         (snd (performSearchFast net' query' cfg
                 (snd (advance dt (snd (preloadSearchData net query cfg w))))))
       = controllers (snd (preloadSearchData net query cfg w)).
Proof.
  intros net net' query query' cfg w items dt Hq Hlow Hres Hdt.
  rewrite (preload_then_hit net net' query query' cfg w items dt Hq Hlow
             Hres Hdt).
  split; reflexivity.
Qed.

Lemma preload_makes_search_instant_witness :
  fetch_count
    (log (snd (performSearchFast net_unavailable "SHOES" cfg_both
                 (snd (advance 899999
                         (snd (preloadSearchData net_pages_only "shoes"
                                 cfg_both initial_world)))))))
  = fetch_count
      (log (snd (preloadSearchData net_pages_only "shoes" cfg_both
                   initial_world))).
Proof.
  destruct (preload_makes_search_instant net_pages_only net_unavailable
              "shoes" "SHOES" cfg_both initial_world
              [[("name", JStr "a"); ("_type", JStr "page")];
               [("name", JStr "b"); ("_type", JStr "page")]] 899999)
    as [H _].
  - discriminate.
  - reflexivity.
  - vm_compute. reflexivity.
  - vm_compute. reflexivity.
  - rewrite H. vm_compute. reflexivity.
Defined.

(** X19.  A total failure that was preloaded is cached like a confirmed empty
    result: when every sub-request of a preload fails, a search for the
    query within [CACHE_DURATION] draws the no-results message from the
    cache and sends no request, even if the network would answer by
    then. *)
Theorem preloaded_failure_hides_results :
  forall (net net' : Network) (query : string) (cfg : SearchConfig)
         (w : World) (dt : Z),
    query <> "" ->
    (wants_pages (selectedOption cfg) = true ->
     sub_fails net (pageUrl query cfg)) ->
    (wants_collection (selectedOption cfg) = true ->
     sub_fails net (cmsUrl query cfg)) ->
    (dt < CACHE_DURATION)%Z ->
    log (snd (performSearchFast net' query cfg
                (snd (advance dt (snd (preloadSearchData net query cfg w))))))
    = log (snd (preloadSearchData net query cfg w))
      ++ [EvClearResults; EvRenderNoResults].
Proof.
  intros net net' query cfg w dt Hq Hp Hc Hdt.
  assert (fst (executeParallelSearches net query cfg w) = Returns []) as Hres.
  { destruct (executeParallelSearches_spec net query cfg w) as (-> & _).
    unfold expected_results.
    destruct (wants_pages (selectedOption cfg));
      destruct (wants_collection (selectedOption cfg)); simpl;
      rewrite ?(sub_fails_result _ _ "page" (Hp eq_refl));
      rewrite ?(sub_fails_result _ _ "cms" (Hc eq_refl)); reflexivity. }
  rewrite (preload_then_hit net net' query query cfg w [] dt Hq eq_refl
             Hres Hdt).
  reflexivity.
Qed.

Lemma preloaded_failure_hides_results_witness :
  log (snd (performSearchFast net_pages_only "shoes" cfg_pages
              (snd (advance 60000
                      (snd (preloadSearchData net_unavailable "shoes"
                              cfg_pages initial_world))))))
  = log (snd (preloadSearchData net_unavailable "shoes" cfg_pages
                initial_world))
    ++ [EvClearResults; EvRenderNoResults].
Proof.
  apply (preloaded_failure_hides_results net_unavailable net_pages_only
           "shoes" cfg_pages initial_world 60000).
  - discriminate.
  - intros _.
    apply fails_response
      with (r := mkResponse 503 "Service Unavailable" None);
      [reflexivity | apply broken_status; reflexivity].
  - intros H. vm_compute in H. discriminate.
  - vm_compute. reflexivity.
Defined.

(** ** Attempts and timers *)

Lemma fetch_count_app (a b : list Event) :
  fetch_count (a ++ b) = fetch_count a + fetch_count b.
Proof.
  induction a as [|e a IH]; [reflexivity|].
  destruct e; simpl; rewrite ?IH; reflexivity.
Qed.

Lemma timers_set_app (a b : list Event) :
  timers_set (a ++ b) = timers_set a + timers_set b.
Proof.
  induction a as [|e a IH]; [reflexivity|].
  destruct e; simpl; rewrite ?IH; reflexivity.
Qed.

Lemma timers_cleared_app (a b : list Event) :
  timers_cleared (a ++ b) = timers_cleared a + timers_cleared b.
Proof.
  induction a as [|e a IH]; [reflexivity|].
  destruct e; simpl; rewrite ?IH; reflexivity.
Qed.

Lemma optimizedFetch_settle_step net retries attempt p :
  optimizedFetch_settle net (S retries) attempt p
  = try_catch
      (response <- await_fetch net attempt p ;;
       emit EvClearTimeout ;;
       ret response)
      (fun error =>
         emit EvClearTimeout ;;
         if negb (is_abort error) then
           emit (EvWait 300) ;;
           p' <- optimizedFetch_issue (p_url p) (p_options p) ;;
           optimizedFetch_settle net retries (S attempt) p'
         else throw error).
Proof. reflexivity. Qed.

Lemma optimizedFetch_settle_events retries : forall net attempt p w,
  fresh_in w p ->
  exists events,
    log (snd (optimizedFetch_settle net retries attempt p w))
    = log w ++ events
    /\ fetch_count events <= retries
    /\ timers_cleared events = S (timers_set events)
    /\ fst (optimizedFetch_settle net retries attempt p w) <> Hangs.
Proof.
  induction retries as [|retries IH]; intros net attempt p w Hfresh.
  - destruct (optimizedFetch_settle_last net attempt p w Hfresh)
      as (Ho & _ & Hl).
    exists [EvClearTimeout]. rewrite Hl, Ho.
    repeat split; simpl; try lia.
    destruct (reply net (p_url p) attempt); discriminate.
  - rewrite optimizedFetch_settle_step.
    remember (optimizedFetch_settle net retries (S attempt)) as next
      eqn:Hnext.
    unfold try_catch, bind.
    rewrite (await_fetch_eq net attempt p w Hfresh).
    destruct (reply net (p_url p) attempt) as [r|e|]; cbv iota beta.
    + exists [EvClearTimeout]. simpl. repeat split; try lia. discriminate.
    + destruct (is_abort e) eqn:Eab; simpl.
      * exists [EvClearTimeout]. simpl. repeat split; try lia. discriminate.
      * match goal with
        | |- context [next ?p' ?w3] =>
            assert (fresh_in w3 p') as Hf' by fresh_controller;
            destruct (IH net (S attempt) p' w3 Hf')
              as (events & Hl & Hn & Ht & Hs)
        end.
        rewrite <- Hnext in Hl, Hs.
        eexists. split; [rewrite Hl; simpl; rewrite <- !app_assoc;
                         simpl; reflexivity|].
        simpl. repeat split; try lia. exact Hs.
    + rewrite is_abort_AbortError. simpl.
      exists [EvClearTimeout]. simpl. repeat split; try lia. discriminate.
Qed.

(** X20.  [optimizedFetch(url, options, retries)] makes at least one and at most
    [retries + 1] attempts, clears the timer of every attempt it made, and
    comes to an end (it returns or throws) whatever the network does. *)
Theorem fetch_attempts_are_bounded :
  forall (net : Network) (url : Url) (options : FetchInit) (retries : nat)
         (w : World),
    exists events,
      log (snd (optimizedFetch net url options retries w)) = log w ++ events
      /\ 1 <= fetch_count events <= S retries
      /\ timers_set events = timers_cleared events
      /\ fst (optimizedFetch net url options retries w) <> Hangs.
Proof.
  intros net url options retries w.
  unfold optimizedFetch, bind. rewrite optimizedFetch_issue_eq.
  match goal with
  | |- context [optimizedFetch_settle net retries 0 ?p ?w1] =>
      assert (fresh_in w1 p) as Hf by fresh_controller;
      destruct (optimizedFetch_settle_events retries net 0 p w1 Hf)
        as (events & Hl & Hn & Ht & Hs)
  end.
  eexists. split; [rewrite Hl; simpl; rewrite <- !app_assoc; simpl;
                   reflexivity|].
  simpl. repeat split; try lia. exact Hs.
Qed.

(** ** Starting a search *)

(** X21.  Every start of a search installs a controller of its own as
    [currentSearchController], not aborted, and aborts the controller of
    the search before it; it issues one request for "Pages", one for
    "Collection", two for "Both", and none for any other option. *)
Theorem new_search_replaces_controller :
  forall (query : string) (cfg : SearchConfig) (w : World),
    currentSearchController (snd (executeParallelSearches_start query cfg w))
    = Some (List.length (controllers w))
    /\ aborted (snd (executeParallelSearches_start query cfg w))
               (List.length (controllers w)) = false
    /\ (forall c, currentSearchController w = Some c ->
                  c < List.length (controllers w) ->
                  aborted (snd (executeParallelSearches_start query cfg w)) c
                  = true)
    /\ fetch_count (log (snd (executeParallelSearches_start query cfg w)))
       = fetch_count (log w)
         + (if wants_pages (selectedOption cfg) then 1 else 0)
         + (if wants_collection (selectedOption cfg) then 1 else 0).
Proof.
  intros query cfg w.
  unfold executeParallelSearches_start, bind, get_currentSearchController.
  destruct (currentSearchController w) as [c0|];
    destruct (wants_pages (selectedOption cfg));
    destruct (wants_collection (selectedOption cfg));
    simpl; rewrite ?raise_flag_length;
    (split; [reflexivity|]);
    (split;
     [unfold aborted; simpl;
      repeat (rewrite app_nth1
                by (rewrite ?length_app, ?raise_flag_length; simpl; lia));
      rewrite <- ?(raise_flag_length (controllers w) c0);
      apply fresh_flag|]);
    (split;
     [intros c Hc Hlt; try discriminate; injection Hc as ->;
      unfold aborted; simpl;
      repeat (rewrite app_nth1
                by (rewrite ?length_app, ?raise_flag_length; simpl; lia));
      now apply raise_flag_same|]);
    rewrite ?fetch_count_app; simpl; lia.
Qed.

Lemma new_search_replaces_controller_witness :
  aborted (snd (executeParallelSearches_start "abc" cfg_pages
                  (snd (executeParallelSearches_start "ab" cfg_pages
                          initial_world)))) 0 = true.
Proof.
  destruct (new_search_replaces_controller "abc" cfg_pages
              (snd (executeParallelSearches_start "ab" cfg_pages
                      initial_world))) as (_ & _ & H & _).
  apply H.
  - reflexivity.
  - simpl. lia.
Defined.

(** X22.  An option that is none of "Pages", "Collection" and "Both" (a missing
    or misspelt attribute) makes the search resolve to no results without
    any request; the log is as it was. *)
Theorem unknown_option_searches_nothing :
  forall (net : Network) (query : string) (cfg : SearchConfig) (w : World),
    wants_pages (selectedOption cfg) = false ->
    wants_collection (selectedOption cfg) = false ->
    fst (executeParallelSearches net query cfg w) = Returns []
    /\ log (snd (executeParallelSearches net query cfg w)) = log w.
Proof.
  intros net query cfg w Hp Hc.
  unfold executeParallelSearches, executeParallelSearches_start,
    executeParallelSearches_finish, bind, get_currentSearchController.
  rewrite Hp, Hc.
  destruct (currentSearchController w); simpl; split; reflexivity.
Qed.

Lemma unknown_option_searches_nothing_witness :
  fst (executeParallelSearches net_pages_only "shoes"
         (mkConfig "pages" "site" "token" "" "" "") initial_world)
  = Returns [].
Proof.
  apply (unknown_option_searches_nothing net_pages_only "shoes"
           (mkConfig "pages" "site" "token" "" "" "") initial_world);
    reflexivity.
Defined.



(** ** The content snippet *)

Lemma length_append (a b : string) :
  String.length (a ++ b)%string = String.length a + String.length b.
Proof. induction a as [|c a IH]; simpl; [reflexivity | now rewrite IH]. Qed.

Lemma length_substring (s : string) : forall n m,
  String.length (substring n m s) = Nat.min m (String.length s - n).
Proof.
  induction s as [|c s IH]; intros [|n] [|m]; simpl; try reflexivity.
  - now rewrite IH, Nat.sub_0_r.
  - apply IH.
  - apply IH.
Qed.

Lemma toLowerCase_length (s : string) :
  String.length (toLowerCase s) = String.length s.
Proof. induction s as [|c s IH]; simpl; [reflexivity | now rewrite IH]. Qed.

Lemma toLowerCase_substring (s : string) : forall n m,
  toLowerCase (substring n m s) = substring n m (toLowerCase s).
Proof.
  induction s as [|c s IH]; intros [|n] [|m]; simpl; try reflexivity.
  - now rewrite IH.
  - apply IH.
  - apply IH.
Qed.

Lemma substring_substring (s : string) : forall a b i n,
  i + n <= b ->
  substring i n (substring a b s) = substring (a + i) n s.
Proof.
  induction s as [|c s IH]; intros a b i n H.
  - destruct a, b, i, n; reflexivity.
  - destruct a as [|a].
    + destruct b as [|b].
      * assert (i = 0) by lia. assert (n = 0) by lia. subst. reflexivity.
      * destruct i as [|i].
        -- destruct n as [|n]; simpl; [reflexivity|].
           f_equal. apply (IH 0 b 0 n). lia.
        -- simpl. apply (IH 0 b i n). lia.
    + simpl. apply IH. assumption.
Qed.

Lemma substring_append_skip (p s : string) (i n : nat) :
  substring (String.length p + i) n (p ++ s)%string = substring i n s.
Proof. induction p as [|c p IH]; simpl; [reflexivity | apply IH]. Qed.

Lemma substring_append_left (s t : string) : forall i n,
  i + n <= String.length s ->
  substring i n (s ++ t)%string = substring i n s.
Proof.
  induction s as [|c s IH]; intros i n H; simpl in *.
  - assert (i = 0) by lia. assert (n = 0) by lia. subst.
    destruct t; reflexivity.
  - destruct i as [|i].
    + destruct n as [|n]; [reflexivity|]. f_equal. apply (IH 0 n). lia.
    + apply IH. lia.
Qed.

(** X24.  The snippet is short, for whatever the browser's HTML
    stripping and lower-casing do: when the lower-cased query does not
    occur in the lower-cased text the snippet is at most [maxLength + 3]
    characters long, and when it occurs, at most the length of the
    lower-cased query plus 106 (50 characters of context on each side and
    two ellipses). *)
Theorem snippet_is_short :
  forall (stripHtml lower : string -> string) (content searchQuery : string)
         (maxLength : nat),
    (index 0 (lower searchQuery) (lower (stripHtml content)) = None ->
     String.length (extractContentSnippet stripHtml lower content searchQuery
                      maxLength)
     <= maxLength + 3)
    /\ (forall queryIndex,
          index 0 (lower searchQuery) (lower (stripHtml content))
          = Some queryIndex ->
          String.length (extractContentSnippet stripHtml lower content
                           searchQuery maxLength)
          <= String.length (lower searchQuery) + 106).
Proof.
  intros stripHtml lower content q maxLength. unfold extractContentSnippet.
  destruct (String.eqb content "" || String.eqb q "");
    [split; intros; simpl; lia|].
  set (clean := stripHtml content).
  split.
  - intros ->. rewrite length_append. unfold string_slice.
    rewrite length_substring.
    destruct (Nat.ltb maxLength (String.length clean)); simpl; lia.
  - intros i ->.
    destruct (Nat.ltb 0 (i - 50));
      destruct (Nat.ltb _ (String.length clean));
      rewrite ?length_append; unfold string_slice;
      rewrite length_substring; simpl; lia.
Qed.

Lemma snippet_is_short_witness :
  String.length
    (extractContentSnippet (fun s => s) toLowerCase
       "Red SHOES for sale" "shoes" 1000) <= 111
  /\ String.length
       (extractContentSnippet (fun s => s) toLowerCase
          "Red SHOES for sale" "boots" 10) <= 13.
Proof.
  destruct (snippet_is_short (fun s => s) toLowerCase
              "Red SHOES for sale" "shoes" 1000) as [_ H1].
  destruct (snippet_is_short (fun s => s) toLowerCase
              "Red SHOES for sale" "boots" 10) as [H2 _].
  split.
  - apply (H1 4). reflexivity.
  - apply H2. reflexivity.
Defined.

(** X25.  When the lower-cased query is found in the lower-cased text at
    an index whose stretch of that length lies inside the text itself, the
    snippet holds that stretch of the text; and when lower-casing this
    stretch gives the stretch of the lower-cased text (as it does wherever
    lower-casing works character by character and keeps lengths), that
    part of the snippet is the query up to letter case. *)
Theorem snippet_shows_the_match :
  forall (stripHtml lower : string -> string) (content searchQuery : string)
         (maxLength queryIndex : nat),
    content <> "" -> searchQuery <> "" ->
    index 0 (lower searchQuery) (lower (stripHtml content))
    = Some queryIndex ->
    queryIndex + String.length (lower searchQuery)
    <= String.length (stripHtml content) ->
    exists offset,
      substring offset (String.length (lower searchQuery))
        (extractContentSnippet stripHtml lower content searchQuery maxLength)
      = substring queryIndex (String.length (lower searchQuery))
          (stripHtml content)
      /\ (lower (substring queryIndex (String.length (lower searchQuery))
                   (stripHtml content))
          = substring queryIndex (String.length (lower searchQuery))
              (lower (stripHtml content)) ->
          lower
            (substring offset (String.length (lower searchQuery))
               (extractContentSnippet stripHtml lower content searchQuery
                  maxLength))
          = lower searchQuery).
Proof.
  intros stripHtml lower content q maxLength i Hc Hq Hi Hfit.
  unfold extractContentSnippet.
  apply String.eqb_neq in Hc. apply String.eqb_neq in Hq.
  rewrite Hc, Hq. cbn [orb]. rewrite Hi.
  set (clean := stripHtml content) in *.
  set (n := String.length (lower q)) in *.
  pose proof (index_correct1 0 i _ _ Hi) as Hsub. fold n in Hsub.
  set (start := i - 50).
  set (stop := Nat.min (String.length clean) (i + n + 50)).
  assert (substring (i - start) n (string_slice clean start stop)
          = substring i n clean) as Hcore.
  { unfold string_slice. rewrite substring_substring by (subst start stop; lia).
    f_equal. subst start. lia. }
  assert (i - start + n <= String.length (string_slice clean start stop))
    as Hin.
  { unfold string_slice. rewrite length_substring. subst start stop. lia. }
  assert (forall offset snippet,
             substring offset n snippet = substring i n clean ->
             substring offset n snippet = substring i n clean
             /\ (lower (substring i n clean) = substring i n (lower clean) ->
                 lower (substring offset n snippet) = lower q)) as Hend.
  { intros offset snippet E. split; [exact E|].
    intros Hlow. rewrite E, Hlow. exact Hsub. }
  destruct (Nat.ltb 0 start); destruct (Nat.ltb stop (String.length clean)).
  - exists (3 + (i - start)). apply Hend.
    rewrite substring_append_left
      by (rewrite length_append; simpl String.length; lia).
    rewrite (substring_append_skip "..." _ (i - start) n). exact Hcore.
  - exists (3 + (i - start)). apply Hend.
    rewrite (substring_append_skip "..." _ (i - start) n). exact Hcore.
  - exists (i - start). apply Hend.
    rewrite substring_append_left by lia. exact Hcore.
  - exists (i - start). apply Hend. exact Hcore.
Qed.

Lemma snippet_shows_the_match_witness :
  extractContentSnippet (fun s => s) toLowerCase "Red SHOES for sale" "shoes"
    150
  = "Red SHOES for sale"
  /\ exists offset,
       substring offset 5
         (extractContentSnippet (fun s => s) toLowerCase
            "Red SHOES for sale" "shoes" 150)
       = "SHOES"
       /\ toLowerCase
            (substring offset 5
               (extractContentSnippet (fun s => s) toLowerCase
                  "Red SHOES for sale" "shoes" 150))
          = "shoes".
Proof.
  split; [reflexivity|].
  destruct (snippet_shows_the_match (fun s => s) toLowerCase
              "Red SHOES for sale" "shoes" 150 4) as (offset & H & H').
  - discriminate.
  - discriminate.
  - reflexivity.
  - simpl. lia.
  - exists offset. split; [exact H|]. apply H'. reflexivity.
Defined.
